(** * VIA-Mapper: the layout mapper of [run.py]

    [run.py] converts a VIA keyboard configuration between the Keychron Q1 Pro
    and the GMMK Pro.  This file embeds its core ([detect_keyboard],
    [map_config], [_map_config], [map_layer], [get_mapping] and the four
    constant tables) and proves the properties stated about it.

    Modelling choices.
    - A key code is a Python [str]: [string].  A layout or a layer is a Python
      list of key codes: [list string], indexed from 0.
    - A Python [dict] is an association list in insertion order ([dict]):
      assigning to a key that is present keeps its place, assigning to a new key
      appends.  [mapping.items()] is the list itself.
    - Positions are natural numbers: the keys of an index mapping come from
      [enumerate], its values from [list.index].
    - An exception is a value of [exn]; code that may raise returns a [result].
      [SystemError] is what the model answers to a reference that is not in
      the store; no store built from a parsed document has one.
    - [_map_config] copies and updates dictionaries that the caller still
      holds, so configurations live in a store of objects ([heap]) and are
      passed by reference ([loc]); [map_layer] builds its list locally and
      the caller stores it.
    - The schema of a VIA configuration types [layers] as an array of arrays
      of strings.  [read_layers] and [read_layer] read a configuration
      through that type and answer [TypeError] to any other shape; Python
      raises it for a scalar in the place of a list, and goes on with a
      string, a dict or a layer entry that is not a string, which the model
      does not follow.  Every statement about [map_config] below is about
      configurations of the schema. *)

From Stdlib Require Import ZArith String List.
From Stdlib Require Import Floats.SpecFloat.
From stdpp Require Import base decidable option list strings sorting.

Local Open Scope string_scope.
Local Open Scope list_scope.

(** ** Exceptions and results *)

Inductive exn : Type :=
| IndexError
| KeyError
| TypeError
| AttributeError
| SystemError.

Inductive result (A : Type) : Type :=
| Ok (a : A)
| Raise (e : exn).

Arguments Ok {A} a.
Arguments Raise {A} e.

#[global] Instance result_ret : MRet result := fun A a => Ok a.

#[global] Instance result_bind : MBind result := fun A B k m =>
  match m with
  | Ok a => k a
  | Raise e => Raise e
  end.

(** A [for] loop whose body may raise: the state is threaded through the
    items in order and the first exception ends the loop. *)
Fixpoint for_each {A S : Type} (body : S -> A -> result S) (items : list A) (s : S)
  : result S :=
  match items with
  | [] => Ok s
  | x :: rest => s' ← body s x; for_each body rest s'
  end.

(** A list built by a body that may raise, item by item. *)
Fixpoint map_result {A B : Type} (f : A -> result B) (items : list A) : result (list B) :=
  match items with
  | [] => Ok []
  | x :: rest => y ← f x; ys ← map_result f rest; Ok (y :: ys)
  end.

(** ** Python lists *)

(** [l[i]] for [i >= 0]. *)
Definition list_getitem {A : Type} (l : list A) (i : nat) : result A :=
  match l !! i with
  | Some x => Ok x
  | None => Raise IndexError
  end.

(** [l[i] = x] for [i >= 0]. *)
Definition list_setitem {A : Type} (l : list A) (i : nat) (x : A) : result (list A) :=
  if decide (i < length l) then Ok (<[i:=x]> l) else Raise IndexError.

(** [l.index(key)]: the first position holding [key]; [None] stands for the
    [ValueError] that Python raises when [key] is not in [l]. *)
Fixpoint list_index (l : list string) (key : string) : option nat :=
  match l with
  | [] => None
  | x :: rest =>
      if String.eqb x key then Some 0
      else
        match list_index rest key with
        | Some j => Some (S j)
        | None => None
        end
  end.

(** [enumerate(l)], counting from [start]. *)
Fixpoint enumerate_from {A : Type} (start : nat) (l : list A) : list (nat * A) :=
  match l with
  | [] => []
  | x :: rest => (start, x) :: enumerate_from (S start) rest
  end.

Definition enumerate {A : Type} (l : list A) : list (nat * A) := enumerate_from 0 l.

(** ** Python dictionaries *)

Definition dict (K V : Type) : Type := list (K * V).

Section Dict.
Context {K V : Type} `{EqDecision K}.

(** [d.get(k)]; [None] when [k not in d]. *)
Fixpoint dict_get (d : dict K V) (k : K) : option V :=
  match d with
  | [] => None
  | (k', v) :: rest => if decide (k = k') then Some v else dict_get rest k
  end.

(** [d[k]]. *)
Definition dict_getitem (d : dict K V) (k : K) : result V :=
  match dict_get d k with
  | Some v => Ok v
  | None => Raise KeyError
  end.

(** [d[k] = v]. *)
Fixpoint dict_set (d : dict K V) (k : K) (v : V) : dict K V :=
  match d with
  | [] => [(k, v)]
  | (k', v') :: rest =>
      if decide (k = k') then (k', v) :: rest else (k', v') :: dict_set rest k v
  end.

(** [d.update(other)]. *)
Definition dict_update (d other : dict K V) : dict K V :=
  fold_left (fun acc kv => dict_set acc (fst kv) (snd kv)) other d.
End Dict.

(** ** The constant tables *)

Definition KEYCHRON_LAYER : list string :=
  ["KC_ESC"; "KC_F1"; "KC_F2"; "KC_F3"; "KC_F4"; "KC_F5"; "KC_F6"; "KC_F7";
   "KC_F8"; "KC_F9"; "KC_F10"; "KC_F11"; "KC_F12"; "KC_PSCR"; "KC_NO";
   "KC_MUTE"; "KC_GRV"; "KC_1"; "KC_2"; "KC_3"; "KC_4"; "KC_5"; "KC_6"; "KC_7";
   "KC_8"; "KC_9"; "KC_0"; "KC_MINS"; "KC_EQL"; "KC_BSPC"; "KC_NO"; "KC_PGUP";
   "KC_TAB"; "KC_Q"; "KC_W"; "KC_E"; "KC_R"; "KC_T"; "KC_Y"; "KC_U"; "KC_I";
   "KC_O"; "KC_P"; "KC_LBRC"; "KC_RBRC"; "KC_BSLS"; "KC_NO"; "KC_PGDN";
   "KC_CAPS"; "KC_A"; "KC_S"; "KC_D"; "KC_F"; "KC_G"; "KC_H"; "KC_J"; "KC_K";
   "KC_L"; "KC_SCLN"; "KC_QUOT"; "KC_NO"; "KC_ENT"; "KC_NO"; "KC_HOME";
   "KC_LSFT"; "KC_NO"; "KC_Z"; "KC_X"; "KC_C"; "KC_V"; "KC_B"; "KC_N"; "KC_M";
   "KC_COMM"; "KC_DOT"; "KC_SLSH"; "KC_NO"; "KC_RSFT"; "KC_UP"; "KC_NO";
   "KC_LCTL"; "KC_LGUI"; "KC_LALT"; "KC_NO"; "KC_NO"; "KC_NO"; "KC_SPC";
   "KC_NO"; "KC_NO"; "KC_NO"; "KC_RALT"; "KC_FN"; "KC_RCTL"; "KC_LEFT";
   "KC_DOWN"; "KC_RGHT"].

Definition GMMK_LAYER : list string :=
  ["KC_LSFT"; "KC_MUTE"; "KC_NO"; "KC_LEFT"; "KC_RCTL"; "KC_RGHT"; "KC_LCTL";
   "KC_F5"; "KC_Q"; "KC_TAB"; "KC_A"; "KC_ESC"; "KC_Z"; "KC_PGUP"; "KC_GRV";
   "KC_1"; "KC_W"; "KC_CAPS"; "KC_S"; "KC_NO"; "KC_X"; "KC_PGDN"; "KC_F1";
   "KC_2"; "KC_E"; "KC_F3"; "KC_D"; "KC_F4"; "KC_C"; "KC_UP"; "KC_F2"; "KC_3";
   "KC_R"; "KC_T"; "KC_F"; "KC_G"; "KC_V"; "KC_B"; "KC_5"; "KC_4"; "KC_U";
   "KC_Y"; "KC_J"; "KC_H"; "KC_M"; "KC_N"; "KC_6"; "KC_7"; "KC_I"; "KC_RBRC";
   "KC_K"; "KC_F6"; "KC_COMM"; "KC_DEL"; "KC_EQL"; "KC_8"; "KC_O"; "KC_F7";
   "KC_L"; "KC_DOWN"; "KC_DOT"; "KC_HOME"; "KC_F8"; "KC_9"; "KC_P"; "KC_LBRC";
   "KC_SCLN"; "KC_QUOT"; "KC_NO"; "KC_SLSH"; "KC_MINS"; "KC_0"; "KC_LGUI";
   "KC_RSFT"; "KC_FN"; "KC_LALT"; "KC_SPC"; "KC_RALT"; "KC_NO"; "KC_PSCR";
   "KC_NO"; "KC_BSPC"; "KC_BSLS"; "KC_F11"; "KC_ENT"; "KC_F12"; "KC_F9";
   "KC_F10"].

Definition KEYCHRON_FIXES : dict string string :=
  [("CUSTOM(0)", "KC_LALT"); ("CUSTOM(1)", "KC_RALT"); ("CUSTOM(3)", "KC_RGUI")].

Definition GMMK_FIXES : dict string string := [].

(** ** [get_mapping] and [map_layer] *)

Definition get_mapping_step (new : list string) (mapping : dict nat nat)
    (item : nat * string) : dict nat nat :=
  let '(i, key) := item in
  if String.eqb key "KC_NO" then mapping
  else
    match list_index new key with
    | Some j => dict_set mapping i j
    | None => mapping   (* except ValueError: continue *)
    end.

Definition get_mapping (old new : list string) : dict nat nat :=
  fold_left (get_mapping_step new) (enumerate old) [].

(** [fixes[key] if key in fixes else key]. *)
Definition fixup (fixes : dict string string) (key : string) : string :=
  match dict_get fixes key with
  | Some v => v
  | None => key
  end.

Definition map_layer_step (layer : list string) (fixes : dict string string)
    (new_layer : list string) (item : nat * nat) : result (list string) :=
  let '(idx, new_idx) := item in
  x ← list_getitem layer idx;
  if String.eqb x "KC_NO" then Ok new_layer
  else
    key ← list_getitem layer idx;
    list_setitem new_layer new_idx (fixup fixes key).

Definition map_layer (layer : list string) (layer_size : nat)
    (mapping : dict nat nat) (fixes : dict string string) : result (list string) :=
  let new_layer := replicate layer_size "KC_NO" in
  for_each (map_layer_step layer fixes) mapping new_layer.

(** ** Configurations: JSON values in a store *)

Abbreviation loc := nat.

(** What [json.load] produces: scalars, and references to lists and dicts. *)
Inductive value : Type :=
| VNone
| VBool (b : bool)
| VInt (z : Z)
| VFloat (f : spec_float)
| VStr (s : string)
| VRef (l : loc).

Inductive object : Type :=
| OList (items : list value)
| ODict (entries : dict string value).

Abbreviation heap := (list object).

Definition alloc (o : object) (h : heap) : loc * heap := (length h, h ++ [o]).

Definition load (h : heap) (l : loc) : result object :=
  match h !! l with
  | Some o => Ok o
  | None => Raise SystemError
  end.

(** [f == n] for a float [f] and an integer [n]: Python compares the exact
    values. *)
Definition float_eq_int (f : spec_float) (n : Z) : bool :=
  match f with
  | S754_zero _ => (n =? 0)%Z
  | S754_finite s m e =>
      let v := if s then Z.neg m else Z.pos m in
      if (0 <=? e)%Z then (n =? v * 2 ^ e)%Z else (n * 2 ^ (- e) =? v)%Z
  | _ => false
  end.

(** [a == c] where [c] is a scalar.  A list or a dict never equals a scalar;
    the right operand is a scalar constant wherever the program compares. *)
Definition value_eq (a c : value) : bool :=
  match a, c with
  | VNone, VNone => true
  | VStr s, VStr t => String.eqb s t
  | VBool x, VBool y => Bool.eqb x y
  | VBool x, VInt n | VInt n, VBool x => (Z.b2z x =? n)%Z
  | VInt m, VInt n => (m =? n)%Z
  | VFloat f, VInt n | VInt n, VFloat f => float_eq_int f n
  | VFloat f, VBool x | VBool x, VFloat f => float_eq_int f (Z.b2z x)
  | VFloat f, VFloat g => SFeqb f g
  | _, _ => false
  end.

Definition KEYCHRON_INFO : dict string value :=
  [("name", VStr "Keyboard 81 Pro/Q1 Pro ANSI RGB Knob");
   ("vendorProductId", VInt 875824656)].

Definition GMMK_INFO : dict string value :=
  [("name", VStr "GMMK Pro"); ("vendorProductId", VInt 839864388)].

(** [config[key]] for a string [key]: a list takes no string index. *)
Definition config_getitem (h : heap) (config : loc) (key : string) : result value :=
  o ← load h config;
  match o with
  | ODict entries => dict_getitem entries key
  | OList _ => Raise TypeError
  end.

Definition detect_keyboard (h : heap) (config : loc) : result (option string) :=
  let key := "vendorProductId" in
  a ← config_getitem h config key;
  k ← dict_getitem KEYCHRON_INFO key;
  if value_eq a k then Ok (Some "KEYCHRON")
  else
    a ← config_getitem h config key;
    g ← dict_getitem GMMK_INFO key;
    if value_eq a g then Ok (Some "GMMK")
    else Ok None.

(** [d.update(other)] on the dict stored at [d]. *)
Definition dict_update_at (d : loc) (other : dict string value) (h : heap)
  : result heap :=
  o ← load h d;
  match o with
  | ODict entries => Ok (<[d := ODict (dict_update entries other)]> h)
  | OList _ => Raise AttributeError
  end.

(** The items of [config["layers"]] and the key codes of one layer, read
    through the schema: a list of lists of strings.  Any other shape gets
    [TypeError]. *)
Definition read_layers (h : heap) (layers : value) : result (list value) :=
  match layers with
  | VRef l =>
      o ← load h l;
      match o with
      | OList items => Ok items
      | ODict _ => Raise TypeError
      end
  | _ => Raise TypeError
  end.

Definition as_key (v : value) : result string :=
  match v with
  | VStr s => Ok s
  | _ => Raise TypeError
  end.

Definition read_layer (h : heap) (layer : value) : result (list string) :=
  items ← read_layers h layer;
  map_result as_key items.

(** One turn of the list comprehension of [_map_config]: [map_layer] reads the
    layer it is given and returns a list of its own. *)
Definition map_layer_at (layer_size : nat) (mapping : dict nat nat)
    (fixes : dict string string) (st : list value * heap) (layer : value)
  : result (list value * heap) :=
  let '(acc, h) := st in
  keys ← read_layer h layer;
  new_layer ← map_layer keys layer_size mapping fixes;
  let '(l, h) := alloc (OList (VStr <$> new_layer)) h in
  Ok (acc ++ [VRef l], h).

Definition _map_config (config : loc) (keyboard_info : dict string value)
    (layer_size : nat) (mapping : dict nat nat) (fixes : dict string string)
    (h : heap) : result (loc * heap) :=
  o ← load h config;
  match o with
  | OList _ => Raise AttributeError
  | ODict entries =>
      let '(new_config, h) := alloc (ODict entries) h in
      h ← dict_update_at new_config keyboard_info h;
      layers ← config_getitem h config "layers";
      items ← read_layers h layers;
      '(new_layers, h) ← for_each (map_layer_at layer_size mapping fixes) items ([], h);
      let '(l, h) := alloc (OList new_layers) h in
      h ← dict_update_at new_config [("layers", VRef l)] h;
      Ok (new_config, h)
  end.

Definition map_config (config : loc) (keyboard : string) (h : heap)
  : result (loc * heap) :=
  let is_keychron := String.eqb keyboard "KEYCHRON" in
  let keyboard_info := if is_keychron then GMMK_INFO else KEYCHRON_INFO in
  let layer_size := if is_keychron then length GMMK_LAYER else length KEYCHRON_LAYER in
  let fixes := if is_keychron then KEYCHRON_FIXES else GMMK_FIXES in
  let from_layer := if is_keychron then KEYCHRON_LAYER else GMMK_LAYER in
  let to_layer := if is_keychron then GMMK_LAYER else KEYCHRON_LAYER in
  let mapping := get_mapping from_layer to_layer in
  _map_config config keyboard_info layer_size mapping fixes h.

(** A store with one Keychron configuration: the dictionary at 0, its list
    of layers at 1, one layer at 2 and the list of another field at 3. *)
Definition small_heap : heap :=
  [ODict [("name", VStr "mine"); ("vendorProductId", VInt 875824656);
          ("layers", VRef 1); ("macros", VRef 3)];
   OList [VRef 2];
   OList (VStr <$> KEYCHRON_LAYER);
   OList [VStr "m0"]].

(** ** [main], from the parsed configuration on *)

(** What the program writes: a line on standard error ([log]), or the
    configuration handed to [json.dumps] and printed on standard output
    ([print_as_json]).  The traceback that the interpreter prints for an
    uncaught exception is not among the events. *)
Inductive event : Type :=
| Stderr (line : string)
| Stdout (config : loc) (h : heap).

(** How a run ends: [main] returns, [sys.exit(code)], or an exception that
    nothing catches. *)
Inductive status : Type :=
| Returned
| Exit (code : Z)
| Uncaught (e : exn).

Definition log (line : string) (out : list event) : list event :=
  out ++ [Stderr line].

Definition announce_plan (keyboard : string) (out : list event) : list event :=
  if String.eqb keyboard "KEYCHRON" then
    log "Mapping to a GMMK Pro config..." (log "Detected Keychron Q1 Pro config." out)
  else if String.eqb keyboard "GMMK" then
    log "Mapping to a Keychron Q1 Pro config..." (log "Detected GMMK Pro config." out)
  else out.

Definition print_as_json (config : loc) (h : heap) (out : list event) : list event :=
  out ++ [Stdout config h].

(** [main] once [parse_file] has returned the configuration at [config]. *)
Definition main (h : heap) (config : loc) : list event * status :=
  match detect_keyboard h config with
  | Raise e => ([], Uncaught e)
  | Ok None =>
      (log "Failed to detect which keyboard this config file is for." [], Exit 1)
  | Ok (Some keyboard) =>
      let out := announce_plan keyboard [] in
      match map_config config keyboard h with
      | Raise e => (out, Uncaught e)
      | Ok (new_config, h') =>
          (log "Done." (print_as_json new_config h' out), Returned)
      end
  end.

(** ** [argsort] *)

(** [sorted(items, key=f)] computes the key of every item once and sorts the
    items by [<] on the keys, keeping items with equal keys in their order.
    Here the items come with their keys, and each is put behind the items
    already placed that it is not smaller than.  For a [<] that is a strict
    weak order and never raises, as on a list of integers or of strings, a
    stable sort has one result, so this is the list that [sorted] returns;
    the statements on [argsort] below are for such a [<] only. *)
Fixpoint insort {A B : Type} (lt : B -> B -> bool) (x : A * B) (l : list (A * B))
  : list (A * B) :=
  match l with
  | [] => [x]
  | y :: rest =>
      if lt x.2 y.2 then x :: y :: rest else y :: insort lt x rest
  end.

Definition sorted_by_key {A B : Type} (lt : B -> B -> bool) (items : list (A * B))
  : list (A * B) :=
  fold_left (fun acc x => insort lt x acc) items [].

(** [sorted(range(len(seq)), key=seq.__getitem__)]: the item [i] has the key
    [seq[i]]. *)
Definition argsort {B : Type} (lt : B -> B -> bool) (seq : list B) : list nat :=
  (sorted_by_key lt (enumerate seq)).*1.

(** [i] comes before [j] in a stable sort of [seq]: its element is smaller, or
    neither is smaller and [i] is the earlier position. *)
Definition sorts_before {B : Type} (lt : B -> B -> bool) (p q : nat * B) : Prop :=
  lt p.2 q.2 = true \/ (lt q.2 p.2 = false /\ p.1 < q.1).

(** The non-placeholder key codes of a layout are pairwise distinct. *)
Definition distinct_keys (layout : list string) : Prop :=
  NoDup (filter (fun key => key <> "KC_NO") layout).

(** ** Specification vocabulary *)

(** The pairs [get_mapping] records for the positions [start], [start + 1], ...
    of [old], in the order it records them. *)
Fixpoint mapping_items (start : nat) (old new : list string) : list (nat * nat) :=
  match old with
  | [] => []
  | key :: rest =>
      (if String.eqb key "KC_NO" then []
       else
         match list_index new key with
         | Some j => [(start, j)]
         | None => []
         end)
      ++ mapping_items (S start) rest new
  end.

(** What [map_config] selects for a source [keyboard], and the conversion it
    applies to each layer. *)
Definition is_keychron (keyboard : string) : bool := String.eqb keyboard "KEYCHRON".

Definition from_layer (keyboard : string) : list string :=
  if is_keychron keyboard then KEYCHRON_LAYER else GMMK_LAYER.

Definition to_layer (keyboard : string) : list string :=
  if is_keychron keyboard then GMMK_LAYER else KEYCHRON_LAYER.

Definition source_fixes (keyboard : string) : dict string string :=
  if is_keychron keyboard then KEYCHRON_FIXES else GMMK_FIXES.

Definition dest_info (keyboard : string) : dict string value :=
  if is_keychron keyboard then GMMK_INFO else KEYCHRON_INFO.

Definition convert_layer (keyboard : string) (layer : list string)
  : result (list string) :=
  map_layer layer (length (to_layer keyboard))
    (get_mapping (from_layer keyboard) (to_layer keyboard)) (source_fixes keyboard).

(** The layers of the configuration stored at [config], as lists of key
    codes. *)
Definition config_layers (h : heap) (config : loc) : result (list (list string)) :=
  layers ← config_getitem h config "layers";
  items ← read_layers h layers;
  map_result (read_layer h) items.

(** A store holding one Keychron configuration whose only layer is
    transparent at all 96 positions, and an unrelated field. *)
Definition transparent_config : heap :=
  [ODict [("name", VStr "Keyboard 81 Pro/Q1 Pro ANSI RGB Knob");
          ("vendorProductId", VInt 875824656);
          ("macros", VRef 3);
          ("layers", VRef 1)];
   OList [VRef 2];
   OList (VStr <$> replicate 96 "KC_TRNS");
   OList [VStr "{KC_LCTL,KC_C}"]].

(** [j] is the first position of [l] that holds [key]. *)
Definition first_position (l : list string) (key : string) (j : nat) : Prop :=
  l !! j = Some key /\ forall j', j' < j -> l !! j' <> Some key.

(** Every destination of [mapping] is a position of a layer of [layer_size]
    keys. *)
Definition valid_mapping (mapping : dict nat nat) (layer_size : nat) : Prop :=
  Forall (fun item => item.2 < layer_size) mapping.

(** [layer] has a key at every source position of [mapping]. *)
Definition covers (layer : list string) (mapping : dict nat nat) : Prop :=
  Forall (fun item => item.1 < length layer) mapping.

(** No replacement of the fixup table [fixes] is the placeholder. *)
Definition placeholder_free (fixes : dict string string) : Prop :=
  Forall (fun kv => kv.2 <> "KC_NO") fixes.

(** * Properties *)

(** ** Examples *)

Example get_mapping_small :
  get_mapping ["A"; "KC_NO"; "B"; "C"; "B"] ["B"; "KC_NO"; "A"; "B"]
  = [(0, 2); (2, 0); (4, 0)].
Proof. reflexivity. Qed.

Example map_layer_small :
  map_layer ["x"; "KC_NO"; "CUSTOM(0)"] 4 [(0, 3); (1, 2); (2, 0)] KEYCHRON_FIXES
  = Ok ["KC_LALT"; "KC_NO"; "KC_NO"; "x"].
Proof. reflexivity. Qed.

Example keychron_to_gmmk_head :
  take 4 (get_mapping KEYCHRON_LAYER GMMK_LAYER) = [(0, 11); (1, 22); (2, 30); (3, 25)].
Proof. vm_compute. reflexivity. Qed.

Example detect_small : detect_keyboard small_heap 0 = Ok (Some "KEYCHRON").
Proof. reflexivity. Qed.


(** ** Lists and dictionaries *)

Lemma list_index_Some (l : list string) (key : string) (j : nat) :
  list_index l key = Some j <->
  l !! j = Some key /\ forall j', j' < j -> l !! j' <> Some key.
Proof.
  revert j. induction l as [|x rest IH]; intros j; simpl.
  - split; [discriminate | intros [H _]; discriminate].
  - destruct (String.eqb_spec x key) as [->|Hne].
    + split.
      * intros [= <-]. split; [done | lia].
      * intros [Hj Hfirst]. destruct j as [|j]; [done|].
        exfalso. apply (Hfirst 0); [lia | done].
    + destruct (list_index rest key) as [j0|].
      * split.
        -- intros [= <-]. destruct (proj1 (IH j0) eq_refl) as [Hj Hfirst].
           split; [done|].
           intros [|j'] Hlt; simpl; [congruence | apply Hfirst; lia].
        -- intros [Hj Hfirst]. destruct j as [|j]; simpl in Hj; [congruence|].
           assert (Some j0 = Some j) as [= ->]; [|done].
           apply IH. split; [done|].
           intros j' Hlt. apply (Hfirst (S j')). lia.
      * split; [discriminate|].
        intros [Hj Hfirst]. destruct j as [|j]; simpl in Hj; [congruence|].
        assert (None = Some j) as Hbad; [|discriminate].
        apply IH. split; [done|].
        intros j' Hlt. apply (Hfirst (S j')). lia.
Qed.

Lemma list_index_None (l : list string) (key : string) :
  list_index l key = None <-> key ∉ l.
Proof.
  induction l as [|x rest IH]; simpl.
  - split; [intros _; apply not_elem_of_nil | done].
  - rewrite not_elem_of_cons. destruct (String.eqb_spec x key) as [->|Hne].
    + split; [discriminate | intros [H _]; done].
    + destruct (list_index rest key); split; try discriminate; try tauto.
      * intros [_ H]. apply IH in H. discriminate.
      * intros _. split; [congruence | by apply IH].
Qed.

Section DictFacts.
Context {K V : Type} `{EqDecision K}.
Implicit Types (d : dict K V) (k : K) (v : V).

Lemma dict_set_fresh d k v : k ∉ d.*1 -> dict_set d k v = d ++ [(k, v)].
Proof.
  induction d as [|[k' v'] rest IH]; simpl; [done|].
  rewrite not_elem_of_cons. intros [Hne Hrest].
  destruct (decide (k = k')); [done|]. by rewrite IH.
Qed.

Lemma dict_get_Some_elem d k v : dict_get d k = Some v -> (k, v) ∈ d.
Proof.
  induction d as [|[k' v'] rest IH]; simpl; [done|].
  destruct (decide (k = k')) as [->|].
  - intros [= ->]. apply list_elem_of_here.
  - intros H1. apply list_elem_of_further. auto.
Qed.

Lemma dict_get_None d k : dict_get d k = None <-> k ∉ d.*1.
Proof.
  induction d as [|[k' v'] rest IH]; simpl.
  - split; [intros _; apply not_elem_of_nil | done].
  - rewrite not_elem_of_cons. destruct (decide (k = k')) as [->|Hne].
    + split; [discriminate | intros [Hk _]; done].
    + rewrite IH. tauto.
Qed.

Lemma dict_get_elem d k v : NoDup d.*1 -> (k, v) ∈ d -> dict_get d k = Some v.
Proof.
  induction d as [|[k' v'] rest IH]; simpl.
  - intros _ H1. by apply elem_of_nil in H1.
  - rewrite NoDup_cons. intros [Hk Hnd] Hin.
    apply elem_of_cons in Hin as [[= -> ->]|Hin].
    + by rewrite decide_True.
    + destruct (decide (k = k')) as [->|]; [|auto].
      exfalso. apply Hk. apply list_elem_of_fmap. by exists (k', v).
Qed.
End DictFacts.

(** ** [get_mapping] *)

Lemma mapping_items_keys start old new i j :
  (i, j) ∈ mapping_items start old new -> start <= i.
Proof.
  revert start. induction old as [|key rest IH]; intros start; simpl.
  - by intros ?%elem_of_nil.
  - rewrite elem_of_app. intros [Hhd|Htl].
    + destruct (String.eqb key "KC_NO"); [by apply elem_of_nil in Hhd|].
      destruct (list_index new key); [|by apply elem_of_nil in Hhd].
      apply list_elem_of_singleton in Hhd as [= -> _]. lia.
    + apply IH in Htl. lia.
Qed.

Lemma get_mapping_fold start old new (acc : dict nat nat) :
  (forall i j, (i, j) ∈ acc -> i < start) ->
  fold_left (get_mapping_step new) (enumerate_from start old) acc
  = acc ++ mapping_items start old new.
Proof.
  revert start acc. induction old as [|key rest IH]; intros start acc Hacc; simpl.
  - by rewrite app_nil_r.
  - assert (start ∉ acc.*1) as Hfresh.
    { intros ([i j] & -> & Hin)%list_elem_of_fmap. apply Hacc in Hin. simpl in *. lia. }
    destruct (String.eqb key "KC_NO").
    + rewrite IH; [done|]. intros i j Hin. apply Hacc in Hin. lia.
    + destruct (list_index new key) as [j0|].
      * rewrite dict_set_fresh by done. rewrite IH.
        -- by rewrite <- app_assoc.
        -- intros i j [Hin|Hin%list_elem_of_singleton]%elem_of_app.
           ++ apply Hacc in Hin. lia.
           ++ injection Hin as -> ->. lia.
      * rewrite IH; [done|]. intros i j Hin. apply Hacc in Hin. lia.
Qed.

Lemma get_mapping_items old new : get_mapping old new = mapping_items 0 old new.
Proof.
  unfold get_mapping, enumerate. rewrite get_mapping_fold; [done|].
  by intros i j ?%elem_of_nil.
Qed.

Lemma elem_of_mapping_items start old new i j :
  (i, j) ∈ mapping_items start old new <->
  exists key, start <= i /\ old !! (i - start) = Some key /\ key <> "KC_NO"
              /\ list_index new key = Some j.
Proof.
  revert start. induction old as [|key rest IH]; intros start; simpl.
  - rewrite elem_of_nil. split; [done|]. by intros (key & _ & ? & _).
  - rewrite elem_of_app, IH. split.
    + intros [Hhd|(k & Hle & Hk & Hno & Hidx)].
      * destruct (String.eqb_spec key "KC_NO") as [|Hno]; [by apply elem_of_nil in Hhd|].
        destruct (list_index new key) as [j0|] eqn:E; [|by apply elem_of_nil in Hhd].
        apply list_elem_of_singleton in Hhd as [= -> ->].
        exists key. by rewrite Nat.sub_diag.
      * exists k. split; [lia|]. split; [|done].
        by replace (i - start) with (S (i - S start)) by lia.
    + intros (k & Hle & Hk & Hno & Hidx).
      destruct (decide (i = start)) as [->|Hne].
      * left. rewrite Nat.sub_diag in Hk. injection Hk as ->.
        destruct (String.eqb_spec k "KC_NO"); [done|].
        rewrite Hidx. apply list_elem_of_here.
      * right. exists k. split; [lia|]. split; [|done].
        by replace (i - start) with (S (i - S start)) in Hk by lia.
Qed.

Lemma mapping_items_NoDup start old new : NoDup (mapping_items start old new).*1.
Proof.
  revert start. induction old as [|key rest IH]; intros start; simpl.
  - apply NoDup_nil_2.
  - rewrite fmap_app. apply NoDup_app. split; [|split; [|apply IH]].
    + destruct (String.eqb key "KC_NO"); [apply NoDup_nil_2|].
      destruct (list_index new key); [apply NoDup_singleton | apply NoDup_nil_2].
    + intros i Hhd ([i' j'] & -> & Htl%mapping_items_keys)%list_elem_of_fmap.
      simpl in *.
      destruct (String.eqb key "KC_NO"); [by apply elem_of_nil in Hhd|].
      destruct (list_index new key); [|by apply elem_of_nil in Hhd].
      apply list_elem_of_singleton in Hhd. simpl in Hhd. lia.
Qed.

Lemma elem_of_get_mapping old new i j :
  (i, j) ∈ get_mapping old new <->
  exists key, old !! i = Some key /\ key <> "KC_NO" /\ first_position new key j.
Proof.
  rewrite get_mapping_items, elem_of_mapping_items. unfold first_position.
  rewrite Nat.sub_0_r. split.
  - intros (key & _ & Hk & Hno & Hidx). exists key. by rewrite <- list_index_Some.
  - intros (key & Hk & Hno & Hfirst). exists key.
    rewrite list_index_Some. repeat split; [lia|done..| |]; apply Hfirst.
Qed.

Lemma get_mapping_NoDup old new : NoDup (get_mapping old new).*1.
Proof. rewrite get_mapping_items. apply mapping_items_NoDup. Qed.

Lemma get_mapping_valid old new : valid_mapping (get_mapping old new) (length new).
Proof.
  unfold valid_mapping. apply Forall_forall. intros [i j] Hin. simpl.
  apply elem_of_get_mapping in Hin as (key & _ & _ & Hj & _).
  by apply lookup_lt_Some in Hj.
Qed.

(** C1. For all layouts [old] and [new], [get_mapping old new] records, for
    every position [i] of [old] whose key code is not ["KC_NO"], the pair
    [i -> j] where [j] is the first position of [new] holding that key code;
    it records nothing for a position whose key code is absent from [new];
    and every pair it records is such a first match, so its destination is a
    position of [new].  The recorded pairs form a partial function. *)
Theorem get_mapping_first_match (old new : list string) :
  (forall i key j,
      old !! i = Some key -> key <> "KC_NO" -> first_position new key j ->
      (i, j) ∈ get_mapping old new /\ dict_get (get_mapping old new) i = Some j)
  /\ (forall i key,
      old !! i = Some key -> key ∉ new ->
      dict_get (get_mapping old new) i = None
      /\ forall j, (i, j) ∉ get_mapping old new)
  /\ (forall i j,
      (i, j) ∈ get_mapping old new ->
      j < length new
      /\ exists key, old !! i = Some key /\ key <> "KC_NO" /\ first_position new key j)
  /\ NoDup (get_mapping old new).*1.
Proof.
  split; [|split; [|split]].
  - intros i key j Hi Hno Hfirst.
    assert ((i, j) ∈ get_mapping old new) as Hin.
    { apply elem_of_get_mapping. by exists key. }
    split; [done|]. apply dict_get_elem; [apply get_mapping_NoDup | done].
  - intros i key Hi Habs.
    assert (forall j, (i, j) ∉ get_mapping old new) as Hnone.
    { intros j (key' & Hi' & _ & Hj & _)%elem_of_get_mapping.
      rewrite Hi in Hi'. injection Hi' as <-.
      apply Habs. by apply list_elem_of_lookup_2 in Hj. }
    split; [|done].
    destruct (dict_get (get_mapping old new) i) as [j|] eqn:E; [|done].
    apply dict_get_Some_elem in E. by apply Hnone in E.
  - intros i j Hin. split.
    + pose proof (get_mapping_valid old new) as Hvalid.
      unfold valid_mapping in Hvalid. rewrite Forall_forall in Hvalid.
      by apply (Hvalid _ Hin).
    + by apply elem_of_get_mapping.
  - apply get_mapping_NoDup.
Qed.

(** ** Results *)

Lemma bind_Ok_inv {A B : Type} (m : result A) (k : A -> result B) (b : B) :
  m ≫= k = Ok b -> exists a, m = Ok a /\ k a = Ok b.
Proof. destruct m as [a|e]; [|discriminate]. intros Hk. by exists a. Qed.

Lemma bind_Raise_inv {A B : Type} (m : result A) (k : A -> result B) (e : exn) :
  m ≫= k = Raise e -> m = Raise e \/ exists a, m = Ok a /\ k a = Raise e.
Proof.
  destruct m as [a|e']; simpl.
  - intros Hk. right. by exists a.
  - intros [= ->]. by left.
Qed.

(** ** The loop of [map_layer] *)

Section MapLayerLoop.
Variables (layer : list string) (fixes : dict string string).

Lemma map_layer_step_eq (acc : list string) (idx new_idx : nat) :
  map_layer_step layer fixes acc (idx, new_idx)
  = match layer !! idx with
    | None => Raise IndexError
    | Some key =>
        if String.eqb key "KC_NO" then Ok acc
        else list_setitem acc new_idx (fixup fixes key)
    end.
Proof.
  unfold map_layer_step, list_getitem.
  destruct (layer !! idx) as [key|]; simpl; [|done].
  by destruct (String.eqb key "KC_NO").
Qed.

Lemma map_layer_step_cases (acc : list string) (item : nat * nat) :
  (layer !! item.1 = None
   /\ map_layer_step layer fixes acc item = Raise IndexError)
  \/ (layer !! item.1 = Some "KC_NO"
      /\ map_layer_step layer fixes acc item = Ok acc)
  \/ (exists key, layer !! item.1 = Some key /\ key <> "KC_NO"
      /\ length acc <= item.2
      /\ map_layer_step layer fixes acc item = Raise IndexError)
  \/ (exists key, layer !! item.1 = Some key /\ key <> "KC_NO"
      /\ item.2 < length acc
      /\ map_layer_step layer fixes acc item
         = Ok (<[item.2 := fixup fixes key]> acc)).
Proof.
  destruct item as [idx new_idx]. rewrite map_layer_step_eq. simpl.
  destruct (layer !! idx) as [key|]; [|by left].
  destruct (String.eqb_spec key "KC_NO") as [->|Hne]; [right; left; done|].
  unfold list_setitem. destruct (decide (new_idx < length acc)).
  - do 3 right. by exists key.
  - right; right; left. exists key.
    split; [done|]. split; [done|]. split; [simpl; lia | done].
Qed.

Lemma map_layer_loop_length mapping (acc r : list string) :
  for_each (map_layer_step layer fixes) mapping acc = Ok r ->
  length r = length acc.
Proof.
  revert acc. induction mapping as [|item rest IH]; intros acc; simpl.
  - by intros [= ->].
  - intros (acc' & Hstep & Hrest)%bind_Ok_inv. apply IH in Hrest.
    destruct (map_layer_step_cases acc item)
      as [[_ E]|[[_ E]|[(key & _ & _ & _ & E)|(key & _ & _ & _ & E)]]];
      rewrite E in Hstep; try discriminate; injection Hstep as <-; [done|].
    by rewrite length_insert in Hrest.
Qed.

Lemma map_layer_loop_raise mapping (acc : list string) (e : exn) :
  for_each (map_layer_step layer fixes) mapping acc = Raise e -> e = IndexError.
Proof.
  revert acc. induction mapping as [|item rest IH]; intros acc; simpl; [done|].
  intros [Hstep|(acc' & _ & Hrest)]%bind_Raise_inv; [|by eapply IH].
  destruct (map_layer_step_cases acc item)
    as [[_ E]|[[_ E]|[(key & _ & _ & _ & E)|(key & _ & _ & _ & E)]]];
    rewrite E in Hstep; congruence.
Qed.

(** The loop returns exactly when every source position is in [layer] and
    every destination that is written is in the new layer. *)
Lemma map_layer_loop_Ok mapping (acc : list string) :
  (exists r, for_each (map_layer_step layer fixes) mapping acc = Ok r) <->
  (forall idx new_idx, (idx, new_idx) ∈ mapping ->
     exists key, layer !! idx = Some key
                 /\ (key <> "KC_NO" -> new_idx < length acc)).
Proof.
  revert acc. induction mapping as [|item rest IH]; intros acc; simpl.
  - split; [by intros _ idx new_idx ?%elem_of_nil | by exists acc].
  - split.
    + intros [r (acc' & Hstep & Hrest)%bind_Ok_inv] idx new_idx Hin.
      assert (length acc' = length acc) as Hlen.
      { apply (map_layer_loop_length [item]). simpl. by rewrite Hstep. }
      apply elem_of_cons in Hin as [<-|Hin].
      * destruct (map_layer_step_cases acc (idx, new_idx))
          as [[_ E]|[[Hk E]|[(key & _ & _ & _ & E)|(key & Hk & _ & Hlt & E)]]];
          simpl in *; rewrite E in Hstep; try discriminate.
        -- by exists "KC_NO".
        -- by exists key.
      * rewrite <- Hlen. apply (proj1 (IH acc')); [by exists r | done].
    + intros Hall.
      destruct (Hall item.1 item.2) as (key & Hk & Hlt).
      { destruct item. apply list_elem_of_here. }
      destruct (map_layer_step_cases acc item)
        as [[Hk' E]|[[Hk' E]|[(key' & Hk' & Hne & Hge & E)|(key' & Hk' & Hne & _ & E)]]];
        rewrite E; simpl.
      * congruence.
      * apply IH. intros idx new_idx Hin. apply Hall. by apply list_elem_of_further.
      * rewrite Hk in Hk'. injection Hk' as <-. apply Hlt in Hne. lia.
      * apply IH. intros idx new_idx Hin. rewrite length_insert.
        apply Hall. by apply list_elem_of_further.
Qed.

(** What the loop leaves at a destination [j]: the old content when no pair
    wrote to [j], and otherwise the fixed-up key of a pair that did. *)
Lemma map_layer_loop_lookup mapping (acc r : list string) (j : nat) :
  for_each (map_layer_step layer fixes) mapping acc = Ok r ->
  (r !! j = acc !! j
   /\ forall idx, (idx, j) ∈ mapping -> layer !! idx = Some "KC_NO")
  \/ (exists idx key, (idx, j) ∈ mapping /\ layer !! idx = Some key
      /\ key <> "KC_NO" /\ r !! j = Some (fixup fixes key)).
Proof.
  revert acc. induction mapping as [|item rest IH]; intros acc; simpl.
  - intros [= ->]. left. split; [done|]. by intros idx ?%elem_of_nil.
  - intros (acc' & Hstep & Hrest)%bind_Ok_inv.
    destruct (IH _ Hrest) as [[Hsame Hnone]|(idx & key & Hin & Hk & Hne & Hr)].
    2:{ right. exists idx, key. split; [by apply list_elem_of_further | done]. }
    destruct item as [idx0 j0].
    destruct (map_layer_step_cases acc (idx0, j0))
      as [[_ E]|[[Hk E]|[(key & _ & _ & _ & E)|(key & Hk & Hne & Hlt & E)]]];
      simpl in *; rewrite E in Hstep; try discriminate; injection Hstep as <-.
    + left. split; [done|]. intros idx [[= -> _]|Hin]%elem_of_cons; auto.
    + destruct (decide (j0 = j)) as [->|Hj].
      * right. exists idx0, key. split; [apply list_elem_of_here|].
        repeat split; [done..|]. rewrite Hsame. by apply list_lookup_insert_eq.
      * left. rewrite Hsame. split; [by apply list_lookup_insert_ne|].
        intros idx [[= -> ->]|Hin]%elem_of_cons; [done | auto].
Qed.
End MapLayerLoop.

Lemma get_mapping_first_match_witness :
  KEYCHRON_LAYER !! 0 = Some "KC_ESC"
  /\ first_position GMMK_LAYER "KC_ESC" 11
  /\ (0, 11) ∈ get_mapping KEYCHRON_LAYER GMMK_LAYER
  /\ dict_get (get_mapping KEYCHRON_LAYER GMMK_LAYER) 0 = Some 11.
Proof.
  assert (first_position GMMK_LAYER "KC_ESC" 11) as Hfirst.
  { split; [reflexivity|]. intros j' Hlt.
    do 11 (destruct j' as [|j']; [discriminate|]). lia. }
  split; [reflexivity|]. split; [exact Hfirst|].
  apply (proj1 (get_mapping_first_match KEYCHRON_LAYER GMMK_LAYER) 0 "KC_ESC" 11);
    [reflexivity | discriminate | exact Hfirst].
Defined.

(** ** [map_layer]: length and exceptions *)

Lemma map_layer_Ok_iff layer layer_size mapping fixes :
  valid_mapping mapping layer_size ->
  (exists new_layer, map_layer layer layer_size mapping fixes = Ok new_layer)
  <-> covers layer mapping.
Proof.
  intros Hvalid. unfold map_layer, covers.
  rewrite map_layer_loop_Ok, Forall_forall. unfold valid_mapping in Hvalid.
  rewrite Forall_forall in Hvalid. split.
  - intros Hall [idx new_idx] Hin. destruct (Hall _ _ Hin) as (key & Hk & _).
    by apply lookup_lt_Some in Hk.
  - intros Hcov idx new_idx Hin.
    destruct (lookup_lt_is_Some_2 layer idx) as [key Hk]; [by apply (Hcov _ Hin)|].
    exists key. split; [done|]. intros _. rewrite length_replicate.
    by apply (Hvalid _ Hin).
Qed.

Lemma map_layer_Ok_length layer layer_size mapping fixes new_layer :
  map_layer layer layer_size mapping fixes = Ok new_layer ->
  length new_layer = layer_size.
Proof.
  intros Hr. apply map_layer_loop_length in Hr. by rewrite length_replicate in Hr.
Qed.

(** C2. For every layer, destination size, index mapping whose
    destinations are all below the destination size, and fixup table:
    whenever [map_layer] returns, the new layer has exactly [layer_size] keys;
    it returns when the layer has a key at every source position of the
    mapping; and when the layer is too short for some source position it
    raises [IndexError] instead of returning a layer. *)
Theorem map_layer_length (layer : list string) (layer_size : nat)
    (mapping : dict nat nat) (fixes : dict string string) :
  valid_mapping mapping layer_size ->
  (forall new_layer,
      map_layer layer layer_size mapping fixes = Ok new_layer ->
      length new_layer = layer_size)
  /\ (covers layer mapping ->
      exists new_layer,
        map_layer layer layer_size mapping fixes = Ok new_layer
        /\ length new_layer = layer_size)
  /\ (~ covers layer mapping ->
      map_layer layer layer_size mapping fixes = Raise IndexError).
Proof.
  intros Hvalid. split; [apply map_layer_Ok_length|]. split.
  - intros Hcov. apply (map_layer_Ok_iff _ _ _ fixes Hvalid) in Hcov as [r Hr].
    exists r. split; [done | by apply map_layer_Ok_length in Hr].
  - intros Hshort.
    destruct (map_layer layer layer_size mapping fixes) as [r|e] eqn:E.
    + exfalso. apply Hshort. apply (map_layer_Ok_iff _ _ _ fixes Hvalid). by exists r.
    + f_equal. by apply map_layer_loop_raise in E.
Qed.

Lemma map_layer_length_witness :
  valid_mapping [(0, 1); (1, 0)] 2
  /\ exists new_layer,
      map_layer ["KC_A"; "KC_B"] 2 [(0, 1); (1, 0)] KEYCHRON_FIXES = Ok new_layer
      /\ length new_layer = 2.
Proof.
  assert (valid_mapping [(0, 1); (1, 0)] 2) as Hvalid.
  { unfold valid_mapping. repeat constructor; simpl; lia. }
  split; [exact Hvalid|].
  apply (map_layer_length ["KC_A"; "KC_B"] 2 [(0, 1); (1, 0)] KEYCHRON_FIXES Hvalid).
  unfold covers. repeat constructor; simpl; lia.
Defined.

(** A Keychron layer cut to ten keys: the mapping is valid for the GMMK size,
    and [map_layer] raises [IndexError]. *)
Lemma map_layer_short_layer_raises :
  valid_mapping (get_mapping KEYCHRON_LAYER GMMK_LAYER) (length GMMK_LAYER)
  /\ length (take 10 KEYCHRON_LAYER) < length KEYCHRON_LAYER
  /\ map_layer (take 10 KEYCHRON_LAYER) (length GMMK_LAYER)
       (get_mapping KEYCHRON_LAYER GMMK_LAYER) KEYCHRON_FIXES
     = Raise IndexError
  /\ ~ (exists new_layer,
          map_layer (take 10 KEYCHRON_LAYER) (length GMMK_LAYER)
            (get_mapping KEYCHRON_LAYER GMMK_LAYER) KEYCHRON_FIXES
          = Ok new_layer
          /\ length new_layer = length GMMK_LAYER).
Proof.
  assert (map_layer (take 10 KEYCHRON_LAYER) (length GMMK_LAYER)
            (get_mapping KEYCHRON_LAYER GMMK_LAYER) KEYCHRON_FIXES
          = Raise IndexError) as Hraise by (vm_compute; reflexivity).
  split; [|split; [|split]].
  - apply get_mapping_valid.
  - vm_compute. lia.
  - exact Hraise.
  - intros (new_layer & Hr & _). rewrite Hraise in Hr. discriminate.
Qed.

(** ** [map_layer]: what is written *)

Lemma fixup_placeholder_free fixes key :
  placeholder_free fixes -> key <> "KC_NO" -> fixup fixes key <> "KC_NO".
Proof.
  intros Hfree Hne. unfold fixup.
  destruct (dict_get fixes key) as [v|] eqn:E; [|done].
  apply dict_get_Some_elem in E. unfold placeholder_free in Hfree.
  rewrite Forall_forall in Hfree. by apply (Hfree _ E).
Qed.

Lemma map_layer_lookup layer layer_size mapping fixes new_layer j v :
  map_layer layer layer_size mapping fixes = Ok new_layer ->
  new_layer !! j = Some v ->
  (v = "KC_NO" /\ forall idx, (idx, j) ∈ mapping -> layer !! idx = Some "KC_NO")
  \/ (exists idx key, (idx, j) ∈ mapping /\ layer !! idx = Some key
      /\ key <> "KC_NO" /\ v = fixup fixes key).
Proof.
  intros Hr Hj. unfold map_layer in Hr.
  destruct (map_layer_loop_lookup _ _ _ _ _ j Hr)
    as [[Hsame Hnone]|(idx & key & Hin & Hk & Hne & Hw)].
  - left. split; [|done]. rewrite Hsame in Hj.
    by apply lookup_replicate_1 in Hj as [-> _].
  - right. exists idx, key. rewrite Hw in Hj. injection Hj as <-. done.
Qed.

(** With one source per destination, a mapped key that is not the placeholder
    arrives, fixed up, at its destination. *)
Lemma map_layer_written layer layer_size mapping fixes new_layer idx j key :
  NoDup mapping.*2 ->
  map_layer layer layer_size mapping fixes = Ok new_layer ->
  (idx, j) ∈ mapping -> layer !! idx = Some key -> key <> "KC_NO" ->
  new_layer !! j = Some (fixup fixes key).
Proof.
  intros Hinj Hr Hin Hk Hne. unfold map_layer in Hr.
  destruct (map_layer_loop_lookup _ _ _ _ _ j Hr)
    as [[_ Hnone]|(idx' & key' & Hin' & Hk' & _ & Hw)].
  - apply Hnone in Hin. congruence.
  - assert (idx' = idx) as ->; [|congruence].
    apply list_elem_of_lookup in Hin as [a Ha], Hin' as [b Hb].
    assert (a = b) as ->; [|congruence].
    apply (NoDup_lookup _ _ _ j Hinj); rewrite list_lookup_fmap.
    + by rewrite Ha.
    + by rewrite Hb.
Qed.

(** C6. For every layer, index mapping and fixup table none of
    whose replacements is ["KC_NO"] (both tables of the program are such): a
    step of the loop of [map_layer] either leaves the new layer as it is or
    writes a key code other than ["KC_NO"] at its destination; and where the
    returned layer holds ["KC_NO"], every pair of the mapping with that
    destination has a source key that is ["KC_NO"], so the placeholder is
    there from the initialisation. *)
Theorem map_layer_placeholder_only_default (layer : list string) (layer_size : nat)
    (mapping : dict nat nat) (fixes : dict string string) :
  placeholder_free fixes ->
  (forall new_layer item r,
      map_layer_step layer fixes new_layer item = Ok r ->
      r = new_layer
      \/ exists v, v <> "KC_NO" /\ r = <[item.2 := v]> new_layer)
  /\ (forall r j,
      map_layer layer layer_size mapping fixes = Ok r ->
      r !! j = Some "KC_NO" ->
      forall idx, (idx, j) ∈ mapping -> layer !! idx = Some "KC_NO").
Proof.
  intros Hfree. split.
  - intros new_layer item r Hstep.
    destruct (map_layer_step_cases layer fixes new_layer item)
      as [[_ E]|[[_ E]|[(key & _ & _ & _ & E)|(key & _ & Hne & _ & E)]]];
      rewrite E in Hstep; try discriminate; injection Hstep as <-; [by left|].
    right. exists (fixup fixes key). split; [|done].
    by apply fixup_placeholder_free.
  - intros r j Hr Hj.
    destruct (map_layer_lookup _ _ _ _ _ _ _ Hr Hj)
      as [[_ Hnone]|(idx & key & _ & _ & Hne & Hv)]; [done|].
    exfalso. by apply (fixup_placeholder_free fixes key).
Qed.

Lemma map_layer_placeholder_only_default_witness :
  placeholder_free KEYCHRON_FIXES
  /\ forall r j,
      map_layer ["CUSTOM(0)"; "KC_NO"] 2 [(0, 1); (1, 0)] KEYCHRON_FIXES = Ok r ->
      r !! j = Some "KC_NO" ->
      forall idx, (idx, j) ∈ [(0, 1); (1, 0)] ->
                  ["CUSTOM(0)"; "KC_NO"] !! idx = Some "KC_NO".
Proof.
  assert (placeholder_free KEYCHRON_FIXES) as Hfree.
  { unfold placeholder_free. repeat constructor; simpl; discriminate. }
  split; [exact Hfree|].
  apply (map_layer_placeholder_only_default
           ["CUSTOM(0)"; "KC_NO"] 2 [(0, 1); (1, 0)] KEYCHRON_FIXES Hfree).
Defined.

(** A fixup table that replaces ["X"] by the placeholder: the step writes
    ["KC_NO"] over a key, and the returned layer holds ["KC_NO"] at a
    destination whose source key is not the placeholder. *)
Lemma map_layer_step_writes_placeholder :
  valid_mapping [(0, 0)] 1
  /\ map_layer_step ["X"] [("X", "KC_NO")] ["KC_A"] (0, 0) = Ok ["KC_NO"]
  /\ map_layer ["X"] 1 [(0, 0)] [("X", "KC_NO")] = Ok ["KC_NO"]
  /\ ["X"] !! 0 = Some "X".
Proof.
  split; [|by vm_compute].
  unfold valid_mapping. repeat constructor; simpl; lia.
Qed.

(** ** The two conversions of [map_config] *)

Lemma keychron_to_gmmk_injective : NoDup (get_mapping KEYCHRON_LAYER GMMK_LAYER).*2.
Proof. apply (bool_decide_unpack _). vm_compute. exact I. Qed.

Lemma gmmk_to_keychron_injective : NoDup (get_mapping GMMK_LAYER KEYCHRON_LAYER).*2.
Proof. apply (bool_decide_unpack _). vm_compute. exact I. Qed.

Lemma conversion_injective keyboard :
  NoDup (get_mapping (from_layer keyboard) (to_layer keyboard)).*2.
Proof.
  unfold from_layer, to_layer. destruct (is_keychron keyboard).
  - apply keychron_to_gmmk_injective.
  - apply gmmk_to_keychron_injective.
Qed.

Lemma from_layer_covers keyboard layer :
  length (from_layer keyboard) <= length layer ->
  covers layer (get_mapping (from_layer keyboard) (to_layer keyboard)).
Proof.
  intros Hlen. unfold covers. apply Forall_forall. intros [i j] Hin. simpl.
  apply elem_of_get_mapping in Hin as (key & Hi & _).
  apply lookup_lt_Some in Hi. lia.
Qed.

Lemma convert_layer_Ok keyboard layer :
  length (from_layer keyboard) <= length layer ->
  exists new_layer,
    convert_layer keyboard layer = Ok new_layer
    /\ length new_layer = length (to_layer keyboard).
Proof.
  intros Hlen. unfold convert_layer.
  destruct (proj2 (map_layer_Ok_iff layer (length (to_layer keyboard))
                     (get_mapping (from_layer keyboard) (to_layer keyboard))
                     (source_fixes keyboard) (get_mapping_valid _ _))
                  (from_layer_covers _ _ Hlen)) as [new_layer Hr].
  exists new_layer. split; [done|]. by apply map_layer_Ok_length in Hr.
Qed.

Lemma source_fixes_key keyboard t v :
  dict_get (source_fixes keyboard) t = Some v ->
  t <> "KC_NO" /\ v <> t /\ fixup (source_fixes keyboard) t = v
  /\ forall key, fixup (source_fixes keyboard) key <> t.
Proof.
  unfold source_fixes. destruct (is_keychron keyboard); [|discriminate].
  unfold fixup. simpl. intros Ht.
  repeat case_decide; simplify_eq; (split; [done|]); (split; [done|]);
    (split; [done|]); intros key; repeat case_decide; congruence.
Qed.

(** C5. For each source keyboard, every layer and every key code [t] that is a
    key of that keyboard's fixup table with replacement [v]: when the
    conversion returns a layer, every mapped position of the input that holds
    [t] arrives at its destination as [v], which differs from [t], and no
    position of the returned layer holds [t]; and the conversion returns
    whenever the layer is as long as the source layout. *)
Theorem fixup_replaces_key (keyboard : string) (layer : list string) (t v : string) :
  dict_get (source_fixes keyboard) t = Some v ->
  v <> t
  /\ (forall r,
      convert_layer keyboard layer = Ok r ->
      (forall idx j,
          (idx, j) ∈ get_mapping (from_layer keyboard) (to_layer keyboard) ->
          layer !! idx = Some t ->
          r !! j = Some v)
      /\ t ∉ r)
  /\ (length (from_layer keyboard) <= length layer ->
      exists r, convert_layer keyboard layer = Ok r).
Proof.
  intros Ht. destruct (source_fixes_key _ _ _ Ht) as (Hno & Hvt & Hfix & Hother).
  split; [done|]. split.
  - intros r Hr. unfold convert_layer in Hr. split.
    + intros idx j Hin Hk. rewrite <- Hfix.
      by apply (map_layer_written _ _ _ _ _ _ _ _ (conversion_injective keyboard) Hr Hin).
    + intros [j Hj]%list_elem_of_lookup.
      destruct (map_layer_lookup _ _ _ _ _ _ _ Hr Hj)
        as [[Heq _]|(idx & key & _ & _ & _ & Heq)]; [done|].
      by apply (Hother key).
  - intros Hlen. destruct (convert_layer_Ok keyboard layer Hlen) as (r & Hr & _).
    by exists r.
Qed.

Lemma fixup_replaces_key_witness :
  dict_get (source_fixes "KEYCHRON") "CUSTOM(0)" = Some "KC_LALT"
  /\ forall r,
      convert_layer "KEYCHRON" (<[82 := "CUSTOM(0)"]> KEYCHRON_LAYER) = Ok r ->
      (forall idx j,
          (idx, j) ∈ get_mapping (from_layer "KEYCHRON") (to_layer "KEYCHRON") ->
          (<[82 := "CUSTOM(0)"]> KEYCHRON_LAYER) !! idx = Some "CUSTOM(0)" ->
          r !! j = Some "KC_LALT")
      /\ "CUSTOM(0)" ∉ r.
Proof.
  split; [reflexivity|].
  apply (fixup_replaces_key "KEYCHRON" (<[82 := "CUSTOM(0)"]> KEYCHRON_LAYER)
           "CUSTOM(0)" "KC_LALT").
  reflexivity.
Defined.

Example custom0_becomes_lalt :
  exists r, convert_layer "KEYCHRON" (<[82 := "CUSTOM(0)"]> KEYCHRON_LAYER) = Ok r
            /\ r !! 75 = Some "KC_LALT" /\ GMMK_LAYER !! 75 = Some "KC_LALT".
Proof. eexists. split; [vm_compute; reflexivity|]. by vm_compute. Qed.

(** ** The extra delete key of the GMMK *)

Lemma gmmk_delete_unmapped j : (53, j) ∉ get_mapping GMMK_LAYER KEYCHRON_LAYER.
Proof.
  intros Hin.
  assert (dict_get (get_mapping GMMK_LAYER KEYCHRON_LAYER) 53 = None) as Hnone
    by (vm_compute; reflexivity).
  apply dict_get_None in Hnone. apply Hnone.
  apply list_elem_of_fmap. by exists (53, j).
Qed.

(** C8. For every GMMK layer that holds ["KC_DEL"] at position 53, the
    position of the extra delete key of the GMMK layout, and nowhere else: no
    position of the layer returned by the conversion to the Keychron holds
    ["KC_DEL"]; the GMMK layout has ["KC_DEL"] at position 53 and the
    Keychron layout has it nowhere; and the conversion returns whenever the
    layer is as long as the GMMK layout. *)
Theorem gmmk_delete_dropped (layer : list string) :
  layer !! 53 = Some "KC_DEL" ->
  (forall i, i <> 53 -> layer !! i <> Some "KC_DEL") ->
  GMMK_LAYER !! 53 = Some "KC_DEL"
  /\ ("KC_DEL" ∉ KEYCHRON_LAYER)
  /\ (forall r, convert_layer "GMMK" layer = Ok r -> "KC_DEL" ∉ r)
  /\ (length GMMK_LAYER <= length layer ->
      exists r, convert_layer "GMMK" layer = Ok r).
Proof.
  intros Hdel Honly. split; [reflexivity|]. split; [|split].
  - apply (bool_decide_unpack _). vm_compute. exact I.
  - intros r Hr [j Hj]%list_elem_of_lookup. unfold convert_layer in Hr.
    destruct (map_layer_lookup _ _ _ _ _ _ _ Hr Hj)
      as [[Heq _]|(idx & key & Hin & Hk & _ & Heq)]; [discriminate|].
    change (fixup (source_fixes "GMMK") key) with key in Heq. subst key.
    destruct (decide (idx = 53)) as [->|Hne].
    + by apply gmmk_delete_unmapped in Hin.
    + by apply (Honly idx).
  - intros Hlen. destruct (convert_layer_Ok "GMMK" layer Hlen) as (r & Hr & _).
    by exists r.
Qed.

Lemma gmmk_delete_dropped_witness :
  GMMK_LAYER !! 53 = Some "KC_DEL"
  /\ (forall i, i <> 53 -> GMMK_LAYER !! i <> Some "KC_DEL")
  /\ forall r, convert_layer "GMMK" GMMK_LAYER = Ok r -> "KC_DEL" ∉ r.
Proof.
  assert (forall i, i <> 53 -> GMMK_LAYER !! i <> Some "KC_DEL") as Honly.
  { intros i Hne Hi.
    assert (i < 88) as Hlt by (apply lookup_lt_Some in Hi; exact Hi).
    do 88 (destruct i as [|i]; [try discriminate; lia|]). lia. }
  split; [reflexivity|]. split; [exact Honly|].
  apply (gmmk_delete_dropped GMMK_LAYER eq_refl Honly).
Defined.

(** ** Iteration order *)

Section MapLayerOrder.
Variables (layer : list string) (fixes : dict string string).

Local Arguments map_layer_step : simpl never.

Lemma map_layer_step_comm (acc : list string) (i1 j1 i2 j2 : nat) :
  j1 <> j2 ->
  for_each (map_layer_step layer fixes) [(i1, j1); (i2, j2)] acc
  = for_each (map_layer_step layer fixes) [(i2, j2); (i1, j1)] acc.
Proof.
  intros Hj. cbn [for_each].
  rewrite (map_layer_step_eq layer fixes acc i1 j1),
    (map_layer_step_eq layer fixes acc i2 j2).
  destruct (layer !! i1) as [k1|] eqn:K1; destruct (layer !! i2) as [k2|] eqn:K2;
    [|destruct (String.eqb k1 "KC_NO") eqn:B1; unfold list_setitem;
      repeat case_decide; simpl; rewrite ?map_layer_step_eq, ?K2; done
     |destruct (String.eqb k2 "KC_NO") eqn:B2; unfold list_setitem;
      repeat case_decide; simpl; rewrite ?map_layer_step_eq, ?K1; done
     |done].
  destruct (String.eqb k1 "KC_NO") eqn:B1; destruct (String.eqb k2 "KC_NO") eqn:B2;
    unfold list_setitem; repeat case_decide; simpl;
    rewrite ?map_layer_step_eq, ?K1, ?K2, ?B1, ?B2; try done;
    unfold list_setitem; rewrite ?length_insert; repeat case_decide;
    simpl; try done; try lia.
  by rewrite list_insert_insert_ne.
Qed.

Lemma map_layer_loop_permutation (mapping mapping' : dict nat nat) :
  mapping ≡ₚ mapping' ->
  NoDup mapping.*2 ->
  forall acc,
    for_each (map_layer_step layer fixes) mapping acc
    = for_each (map_layer_step layer fixes) mapping' acc.
Proof.
  induction 1 as [|item m m' Hperm IH|[i1 j1] [i2 j2] m|m1 m2 m3 H12 IH12 H23 IH23];
    intros Hnd acc.
  - done.
  - simpl. destruct (map_layer_step layer fixes acc item) as [acc'|e]; simpl; [|done].
    apply IH. rewrite fmap_cons in Hnd. by apply NoDup_cons in Hnd as [_ Hnd].
  - assert (j2 <> j1) as Hj.
    { rewrite !fmap_cons in Hnd. apply NoDup_cons in Hnd as [Hnot _].
      simpl in Hnot. intros ->. apply Hnot. apply list_elem_of_here. }
    pose proof (map_layer_step_comm acc i2 j2 i1 j1 Hj) as Hcomm.
    simpl in *.
    destruct (map_layer_step layer fixes acc (i2, j2)) as [a|e];
      destruct (map_layer_step layer fixes acc (i1, j1)) as [b|e']; simpl in *.
    + destruct (map_layer_step layer fixes a (i1, j1)) as [a'|ea];
        destruct (map_layer_step layer fixes b (i2, j2)) as [b'|eb];
        simpl in *; congruence.
    + destruct (map_layer_step layer fixes a (i1, j1)) as [a'|ea];
        simpl in *; congruence.
    + destruct (map_layer_step layer fixes b (i2, j2)) as [b'|eb];
        simpl in *; congruence.
    + done.
  - rewrite IH12 by done. apply IH23. by rewrite <- H12.
Qed.
End MapLayerOrder.

Lemma fmap_snd_injective (mapping : dict nat nat) i i' j :
  NoDup mapping.*2 -> (i, j) ∈ mapping -> (i', j) ∈ mapping -> i = i'.
Proof.
  intros Hnd [a Ha]%list_elem_of_lookup [b Hb]%list_elem_of_lookup.
  assert (a = b) as ->; [|congruence].
  apply (NoDup_lookup _ _ _ j Hnd); rewrite list_lookup_fmap.
  - by rewrite Ha.
  - by rewrite Hb.
Qed.

(** C10. In both layouts the key codes other than ["KC_NO"] are pairwise
    distinct; the index mappings of both directions, Keychron to GMMK and GMMK
    to Keychron, send no two source positions to the same destination; and
    for both, [map_layer] gives the same result, whatever the layer, the
    destination size and the fixup table, when it goes through the pairs of
    the mapping in any other order. *)
Theorem conversion_order_independent :
  NoDup (filter (fun key => key <> "KC_NO") KEYCHRON_LAYER)
  /\ NoDup (filter (fun key => key <> "KC_NO") GMMK_LAYER)
  /\ (forall i i' j,
      (i, j) ∈ get_mapping KEYCHRON_LAYER GMMK_LAYER ->
      (i', j) ∈ get_mapping KEYCHRON_LAYER GMMK_LAYER -> i = i')
  /\ (forall i i' j,
      (i, j) ∈ get_mapping GMMK_LAYER KEYCHRON_LAYER ->
      (i', j) ∈ get_mapping GMMK_LAYER KEYCHRON_LAYER -> i = i')
  /\ (forall layer layer_size fixes mapping',
      mapping' ≡ₚ get_mapping KEYCHRON_LAYER GMMK_LAYER ->
      map_layer layer layer_size mapping' fixes
      = map_layer layer layer_size (get_mapping KEYCHRON_LAYER GMMK_LAYER) fixes)
  /\ (forall layer layer_size fixes mapping',
      mapping' ≡ₚ get_mapping GMMK_LAYER KEYCHRON_LAYER ->
      map_layer layer layer_size mapping' fixes
      = map_layer layer layer_size (get_mapping GMMK_LAYER KEYCHRON_LAYER) fixes).
Proof.
  split; [apply (bool_decide_unpack _); vm_compute; exact I|].
  split; [apply (bool_decide_unpack _); vm_compute; exact I|].
  split; [intros i i' j; apply fmap_snd_injective, keychron_to_gmmk_injective|].
  split; [intros i i' j; apply fmap_snd_injective, gmmk_to_keychron_injective|].
  split; intros layer layer_size fixes mapping' Hperm; unfold map_layer; symmetry;
    apply map_layer_loop_permutation; try done.
  - apply keychron_to_gmmk_injective.
  - apply gmmk_to_keychron_injective.
Qed.

Lemma conversion_order_independent_witness :
  reverse (get_mapping KEYCHRON_LAYER GMMK_LAYER) ≡ₚ get_mapping KEYCHRON_LAYER GMMK_LAYER
  /\ map_layer KEYCHRON_LAYER 88 (reverse (get_mapping KEYCHRON_LAYER GMMK_LAYER))
       KEYCHRON_FIXES
     = map_layer KEYCHRON_LAYER 88 (get_mapping KEYCHRON_LAYER GMMK_LAYER)
         KEYCHRON_FIXES.
Proof.
  split; [apply reverse_Permutation|].
  apply (proj1 (proj2 (proj2 (proj2 (proj2 conversion_order_independent))))).
  apply reverse_Permutation.
Defined.

(** ** Round trips *)

(** C9. There is a Keychron layer, as long as the Keychron layout, that the
    conversion to the GMMK followed by the conversion back does not
    reproduce: position 14 has no key code in the Keychron layout, so no
    GMMK position receives its key, and on the way back it is left at
    ["KC_NO"].  The same holds for a whole configuration taken through
    [map_config] twice. *)
Theorem round_trip_not_identity :
  (exists layer gmmk back,
      length layer = length KEYCHRON_LAYER
      /\ convert_layer "KEYCHRON" layer = Ok gmmk
      /\ convert_layer "GMMK" gmmk = Ok back
      /\ back <> layer
      /\ KEYCHRON_LAYER !! 14 = Some "KC_NO"
      /\ layer !! 14 = Some "KC_TRNS"
      /\ back !! 14 = Some "KC_NO")
  /\ (exists h config layers c1 h1 c2 h2 layers',
      config_layers h config = Ok layers
      /\ detect_keyboard h config = Ok (Some "KEYCHRON")
      /\ map_config config "KEYCHRON" h = Ok (c1, h1)
      /\ detect_keyboard h1 c1 = Ok (Some "GMMK")
      /\ map_config c1 "GMMK" h1 = Ok (c2, h2)
      /\ config_layers h2 c2 = Ok layers'
      /\ layers' <> layers).
Proof.
  split.
  - exists (replicate 96 "KC_TRNS"). eexists. eexists.
    split; [reflexivity|].
    split; [vm_compute; reflexivity|].
    split; [vm_compute; reflexivity|].
    split; [|by vm_compute].
    intros Heq. apply (f_equal (fun l => l !! 14)) in Heq.
    vm_compute in Heq. discriminate.
  - exists transparent_config, 0. do 6 eexists.
    split; [vm_compute; reflexivity|].
    split; [vm_compute; reflexivity|].
    split; [vm_compute; reflexivity|].
    split; [vm_compute; reflexivity|].
    split; [vm_compute; reflexivity|].
    split; [vm_compute; reflexivity|].
    intros Heq. apply (f_equal (fun ls => ls !! 0 ≫= fun l => l !! 14)) in Heq.
    vm_compute in Heq. discriminate.
Qed.

(** ** [detect_keyboard] *)

Lemma value_eq_int_unique v (a b : Z) :
  value_eq v (VInt a) = true -> value_eq v (VInt b) = true -> a = b.
Proof.
  destruct v as [|x|z|f|s|l]; simpl; try discriminate.
  - intros Ha Hb. apply Z.eqb_eq in Ha, Hb. congruence.
  - intros Ha Hb. apply Z.eqb_eq in Ha, Hb. congruence.
  - destruct f as [s|s| |s m e]; simpl; try discriminate.
    + intros Ha Hb. apply Z.eqb_eq in Ha, Hb. congruence.
    + destruct (Z.leb_spec 0 e); intros Ha Hb; apply Z.eqb_eq in Ha, Hb; [congruence|].
      apply (Z.mul_reg_r _ _ (2 ^ (- e))); [|congruence].
      apply Z.pow_nonzero; lia.
Qed.

Lemma detect_keyboard_eq h config entries v :
  h !! config = Some (ODict entries) ->
  dict_get entries "vendorProductId" = Some v ->
  detect_keyboard h config
  = Ok (if value_eq v (VInt 875824656) then Some "KEYCHRON"
        else if value_eq v (VInt 839864388) then Some "GMMK"
        else None).
Proof.
  intros Hc Hv. unfold detect_keyboard, config_getitem, load, dict_getitem.
  rewrite Hc. simpl. rewrite Hv. simpl.
  destruct (value_eq v (VInt 875824656)); [done|].
  by destruct (value_eq v (VInt 839864388)).
Qed.

(** C4. For every configuration that has a [vendorProductId] field, with any
    value [v]: [detect_keyboard] raises nothing; it returns ["KEYCHRON"]
    exactly when [v] equals 875824656, ["GMMK"] exactly when [v] equals
    839864388, and [None] otherwise; in particular, for an integer [v = z],
    it returns ["KEYCHRON"] iff [z = 875824656], ["GMMK"] iff
    [z = 839864388], and [None] for every other integer. *)
Theorem detect_keyboard_exact (h : heap) (config : loc)
    (entries : dict string value) (v : value) :
  h !! config = Some (ODict entries) ->
  dict_get entries "vendorProductId" = Some v ->
  (exists kind, detect_keyboard h config = Ok kind)
  /\ (detect_keyboard h config = Ok (Some "KEYCHRON")
      <-> value_eq v (VInt 875824656) = true)
  /\ (detect_keyboard h config = Ok (Some "GMMK")
      <-> value_eq v (VInt 839864388) = true)
  /\ (detect_keyboard h config = Ok None
      <-> value_eq v (VInt 875824656) = false
          /\ value_eq v (VInt 839864388) = false)
  /\ (forall z : Z,
      v = VInt z ->
      (detect_keyboard h config = Ok (Some "KEYCHRON") <-> z = 875824656%Z)
      /\ (detect_keyboard h config = Ok (Some "GMMK") <-> z = 839864388%Z)
      /\ (z <> 875824656%Z -> z <> 839864388%Z ->
          detect_keyboard h config = Ok None)).
Proof.
  intros Hc Hv. rewrite (detect_keyboard_eq _ _ _ _ Hc Hv).
  split; [by eexists|].
  assert (value_eq v (VInt 839864388) = true ->
          value_eq v (VInt 875824656) = false) as Hexcl.
  { intros Hg. destruct (value_eq v (VInt 875824656)) eqn:Hk; [|done].
    by pose proof (value_eq_int_unique _ _ _ Hk Hg). }
  split; [|split; [|split]].
  - destruct (value_eq v (VInt 875824656)); [done|].
    by destruct (value_eq v (VInt 839864388)).
  - split.
    + destruct (value_eq v (VInt 875824656)); [done|].
      by destruct (value_eq v (VInt 839864388)).
    + intros Hg. by rewrite (Hexcl Hg), Hg.
  - destruct (value_eq v (VInt 875824656)); [by split; [|intros []]|].
    destruct (value_eq v (VInt 839864388)); [by split; [|intros []]|done].
  - intros z ->. simpl.
    destruct (Z.eqb_spec z 875824656) as [->|Hk].
    + repeat split; try done.
    + destruct (Z.eqb_spec z 839864388) as [->|Hg]; repeat split; try done.
Qed.

Lemma detect_keyboard_exact_witness :
  transparent_config !! 0
  = Some (ODict [("name", VStr "Keyboard 81 Pro/Q1 Pro ANSI RGB Knob");
                 ("vendorProductId", VInt 875824656);
                 ("macros", VRef 3);
                 ("layers", VRef 1)])
  /\ (detect_keyboard transparent_config 0 = Ok (Some "KEYCHRON")
      <-> value_eq (VInt 875824656) (VInt 875824656) = true).
Proof.
  split; [reflexivity|].
  apply (detect_keyboard_exact transparent_config 0 _ (VInt 875824656) eq_refl eq_refl).
Defined.

Example detect_unknown :
  detect_keyboard [ODict [("vendorProductId", VInt 1); ("layers", VRef 1)]; OList []] 0
  = Ok None.
Proof. reflexivity. Qed.

Example detect_float :
  detect_keyboard [ODict [("vendorProductId", VFloat (S754_finite false 54739041 4))]] 0
  = Ok (Some "KEYCHRON").
Proof. reflexivity. Qed.

(** ** Stores *)

Lemma map_result_cons_inv {A B : Type} (f : A -> result B) x rest ys :
  map_result f (x :: rest) = Ok ys ->
  exists y ys', f x = Ok y /\ map_result f rest = Ok ys' /\ ys = y :: ys'.
Proof.
  simpl. intros (y & Hy & (ys' & Hys & [= <-])%bind_Ok_inv)%bind_Ok_inv.
  by exists y, ys'.
Qed.

Lemma map_result_ext {A B : Type} (f g : A -> result B) items ys :
  (forall x y, f x = Ok y -> g x = Ok y) ->
  map_result f items = Ok ys -> map_result g items = Ok ys.
Proof.
  intros Hfg. revert ys. induction items as [|x rest IH]; intros ys; [done|].
  intros (y & ys' & Hy & Hys & ->)%map_result_cons_inv. simpl.
  by rewrite (Hfg _ _ Hy), (IH _ Hys).
Qed.

Lemma map_result_as_key keys : map_result as_key (VStr <$> keys) = Ok keys.
Proof.
  induction keys as [|k rest IH]; [done|].
  rewrite fmap_cons. cbn [map_result]. by rewrite IH.
Qed.

Lemma load_app h ext l o : load h l = Ok o -> load (h ++ ext) l = Ok o.
Proof.
  unfold load. destruct (h !! l) as [o'|] eqn:E; [|discriminate].
  intros [= ->]. by rewrite (lookup_app_l_Some _ _ _ _ E).
Qed.

Lemma read_layers_app h ext v items :
  read_layers h v = Ok items -> read_layers (h ++ ext) v = Ok items.
Proof.
  destruct v as [| | | | |l]; simpl; try discriminate.
  intros (o & Ho & Hitems)%bind_Ok_inv. by rewrite (load_app _ ext _ _ Ho).
Qed.

Lemma read_layer_app h ext v keys :
  read_layer h v = Ok keys -> read_layer (h ++ ext) v = Ok keys.
Proof.
  unfold read_layer. intros (items & Hitems & Hkeys)%bind_Ok_inv.
  by rewrite (read_layers_app _ ext _ _ Hitems).
Qed.

Lemma config_getitem_app h ext config key v :
  config_getitem h config key = Ok v -> config_getitem (h ++ ext) config key = Ok v.
Proof.
  unfold config_getitem. intros (o & Ho & Hv)%bind_Ok_inv.
  by rewrite (load_app _ ext _ _ Ho).
Qed.

Lemma config_layers_app h ext config layers :
  config_layers h config = Ok layers -> config_layers (h ++ ext) config = Ok layers.
Proof.
  unfold config_layers.
  intros (v & Hv & (items & Hitems & Hlayers)%bind_Ok_inv)%bind_Ok_inv.
  rewrite (config_getitem_app _ ext _ _ _ Hv). simpl.
  rewrite (read_layers_app _ ext _ _ Hitems). simpl.
  apply (map_result_ext (read_layer h)); [|done].
  intros x y. apply read_layer_app.
Qed.

Lemma read_layer_new h l keys :
  h !! l = Some (OList (VStr <$> keys)) -> read_layer h (VRef l) = Ok keys.
Proof.
  intros Hl. unfold read_layer, read_layers, load. rewrite Hl. simpl.
  apply map_result_as_key.
Qed.

Lemma load_middle h o rest : load (h ++ o :: rest) (length h) = Ok o.
Proof. unfold load. by rewrite list_lookup_middle. Qed.

Lemma dict_update_at_middle h entries rest other :
  dict_update_at (length h) other (h ++ ODict entries :: rest)
  = Ok (h ++ ODict (dict_update entries other) :: rest).
Proof.
  unfold dict_update_at. rewrite load_middle. simpl. f_equal.
  rewrite insert_app_r_alt by lia. by rewrite Nat.sub_diag.
Qed.

(** ** [_map_config] and [map_config] *)

Lemma map_layer_at_Ok layer_size mapping fixes acc h v keys new_layer :
  read_layer h v = Ok keys ->
  map_layer keys layer_size mapping fixes = Ok new_layer ->
  map_layer_at layer_size mapping fixes (acc, h) v
  = Ok (acc ++ [VRef (length h)], h ++ [OList (VStr <$> new_layer)]).
Proof. intros Hkeys Hnew. unfold map_layer_at. by rewrite Hkeys; simpl; rewrite Hnew. Qed.

Lemma map_layer_at_loop layer_size mapping fixes h items layers new_layers :
  map_result (read_layer h) items = Ok layers ->
  map_result (fun l => map_layer l layer_size mapping fixes) layers = Ok new_layers ->
  forall ext acc,
    for_each (map_layer_at layer_size mapping fixes) items (acc, h ++ ext)
    = Ok (acc ++ (VRef <$> seq (length (h ++ ext)) (length new_layers)),
          (h ++ ext) ++ ((fun nl => OList (VStr <$> nl)) <$> new_layers)).
Proof.
  revert layers new_layers.
  induction items as [|v rest IH]; intros layers new_layers.
  - intros [= <-] [= <-] ext acc. simpl. by rewrite !app_nil_r.
  - intros (keys & layers' & Hkeys & Hrest & ->)%map_result_cons_inv.
    intros (nl & nls & Hnl & Hnls & ->)%map_result_cons_inv ext acc.
    cbn [for_each].
    rewrite (map_layer_at_Ok _ _ _ _ _ _ _ _ (read_layer_app _ ext _ _ Hkeys) Hnl).
    simpl. rewrite <- (app_assoc h ext).
    rewrite (IH _ _ Hrest Hnls (ext ++ [OList (VStr <$> nl)]) (acc ++ [VRef (length (h ++ ext))])).
    f_equal. f_equal.
    + rewrite <- app_assoc. f_equal. simpl. f_equal.
      rewrite !length_app. simpl. f_equal. f_equal. lia.
    + by rewrite !app_assoc, <- (app_assoc _ [_]).
Qed.

Lemma _map_config_Ok config info layer_size mapping fixes h entries layers new_layers :
  h !! config = Some (ODict entries) ->
  config_layers h config = Ok layers ->
  map_result (fun l => map_layer l layer_size mapping fixes) layers = Ok new_layers ->
  _map_config config info layer_size mapping fixes h
  = Ok (length h,
        h ++ ODict (dict_update (dict_update entries info)
                      [("layers", VRef (S (length h) + length new_layers))])
          :: ((fun nl => OList (VStr <$> nl)) <$> new_layers)
          ++ [OList (VRef <$> seq (S (length h)) (length new_layers))]).
Proof.
  intros Hc Hlayers Hnew. unfold config_layers in Hlayers.
  apply bind_Ok_inv in Hlayers as (v & Hv & (items & Hitems & Hread)%bind_Ok_inv).
  unfold _map_config, load. rewrite Hc. simpl. unfold alloc.
  rewrite dict_update_at_middle. simpl.
  rewrite (config_getitem_app _ _ _ _ _ Hv). simpl.
  rewrite (read_layers_app _ _ _ _ Hitems). simpl.
  rewrite (map_layer_at_loop _ _ _ _ _ _ _ Hread Hnew). simpl.
  rewrite <- !app_assoc. simpl.
  rewrite dict_update_at_middle. simpl. f_equal. f_equal.
  assert (length (h ++ ODict (dict_update entries info)
                    :: ((fun nl => OList (VStr <$> nl)) <$> new_layers))
          = S (length h + length new_layers)) as ->.
  { rewrite length_app. simpl. rewrite length_fmap. lia. }
  assert (length (h ++ [ODict (dict_update entries info)]) = S (length h)) as ->.
  { rewrite length_app. simpl. lia. }
  done.
Qed.

Section DictUpdate.
Context {K V : Type} `{EqDecision K}.
Implicit Types (d other : dict K V) (k : K) (v : V).

Lemma dict_get_set d k v k' :
  dict_get (dict_set d k v) k' = if decide (k' = k) then Some v else dict_get d k'.
Proof.
  induction d as [|[k0 v0] rest IH]; simpl.
  - by destruct (decide (k' = k)).
  - destruct (decide (k = k0)) as [->|Hne]; simpl.
    + by destruct (decide (k' = k0)).
    + rewrite IH. destruct (decide (k' = k0)) as [->|]; [|done].
      by rewrite decide_False.
Qed.

Lemma dict_get_update_other d other k :
  k ∉ other.*1 -> dict_get (dict_update d other) k = dict_get d k.
Proof.
  unfold dict_update. revert d. induction other as [|[k0 v0] rest IH]; intros d; [done|].
  rewrite fmap_cons, not_elem_of_cons. intros [Hne Hrest]. simpl.
  rewrite IH by done. rewrite dict_get_set. by rewrite decide_False.
Qed.
End DictUpdate.

Lemma map_result_total {A B : Type} (f : A -> result B) items :
  Forall (fun x => exists y, f x = Ok y) items ->
  exists ys, map_result f items = Ok ys /\ Forall2 (fun x y => f x = Ok y) items ys.
Proof.
  induction 1 as [|x rest [y Hy] _ (ys & Hys & Hall)].
  - exists []. by split; [|constructor].
  - exists (y :: ys). simpl. rewrite Hy, Hys. by split; [|constructor].
Qed.

Lemma read_new_layers h base new_layers :
  (forall i nl, new_layers !! i = Some nl ->
                h !! (base + i) = Some (OList (VStr <$> nl))) ->
  map_result (read_layer h) (VRef <$> seq base (length new_layers)) = Ok new_layers.
Proof.
  revert base. induction new_layers as [|nl rest IH]; intros base Hobjs; [done|].
  simpl. rewrite (read_layer_new h base nl).
  - simpl. rewrite IH; [done|]. intros i nl' Hi.
    replace (S base + i) with (base + S i) by lia. by apply Hobjs.
  - rewrite <- (Nat.add_0_r base). by apply Hobjs.
Qed.

Lemma map_config_eq config keyboard h :
  map_config config keyboard h
  = _map_config config (dest_info keyboard) (length (to_layer keyboard))
      (get_mapping (from_layer keyboard) (to_layer keyboard))
      (source_fixes keyboard) h.
Proof.
  unfold map_config, dest_info, to_layer, from_layer, source_fixes, is_keychron.
  by destruct (String.eqb keyboard "KEYCHRON").
Qed.

Lemma config_layers_dict h config layers :
  config_layers h config = Ok layers -> exists entries, h !! config = Some (ODict entries).
Proof.
  unfold config_layers, config_getitem, load.
  intros (v & Hv & _)%bind_Ok_inv.
  destruct (h !! config) as [[items|entries]|]; try discriminate. by exists entries.
Qed.

(** What [map_config] returns on a configuration whose layers are as long as
    the source layout: a new dictionary at a new location, behind the old
    store, with the converted layers. *)
Lemma map_config_Ok keyboard h config entries layers :
  h !! config = Some (ODict entries) ->
  config_layers h config = Ok layers ->
  Forall (fun layer => length (from_layer keyboard) <= length layer) layers ->
  exists new_layers ext,
    map_config config keyboard h = Ok (length h, h ++ ext)
    /\ Forall2 (fun layer new_layer => convert_layer keyboard layer = Ok new_layer)
         layers new_layers
    /\ config_layers (h ++ ext) (length h) = Ok new_layers
    /\ exists l,
        (h ++ ext) !! length h
        = Some (ODict (dict_update (dict_update entries (dest_info keyboard))
                         [("layers", VRef l)])).
Proof.
  intros Hc Hlayers Hlong.
  destruct (map_result_total (convert_layer keyboard) layers) as (new_layers & Hnew & Hall).
  { eapply Forall_impl; [exact Hlong|]. intros layer Hlen. simpl in Hlen.
    destruct (convert_layer_Ok keyboard layer Hlen) as (r & Hr & _). by exists r. }
  exists new_layers. eexists. split; [|split; [done|]].
  - rewrite map_config_eq. by apply (_map_config_Ok _ _ _ _ _ _ entries layers new_layers).
  - split.
    + unfold config_layers, config_getitem, load.
      rewrite list_lookup_middle by done. simpl.
      unfold dict_getitem. rewrite dict_get_set, decide_True by done. simpl.
      unfold load.
      rewrite (lookup_app_r h) by lia.
      replace (S (length h + length new_layers) - length h)
        with (S (length new_layers)) by lia.
      simpl. rewrite lookup_app_r by (rewrite length_fmap; lia).
      rewrite length_fmap, Nat.sub_diag. simpl.
      apply read_new_layers. intros i nl Hi.
      rewrite lookup_app_r by lia.
      replace (S (length h) + i - length h) with (S i) by lia. simpl.
      rewrite lookup_app_l by (rewrite length_fmap; by apply lookup_lt_Some in Hi).
      by rewrite list_lookup_fmap, Hi.
    + eexists. by rewrite list_lookup_middle.
Qed.

(** C3. For every configuration whose [vendorProductId] is
    875824656 and whose layers each have at least the 96 keys of the Keychron
    layout: [detect_keyboard] answers ["KEYCHRON"], and [map_config] returns a
    configuration whose [vendorProductId] is 839864388, whose [name] is
    ["GMMK Pro"], and which has as many layers as the input, each the
    conversion of the input layer in the same place and each of length 88, the
    size of the GMMK layout. *)
Theorem keychron_config_to_gmmk (h : heap) (config : loc)
    (entries : dict string value) (layers : list (list string)) :
  h !! config = Some (ODict entries) ->
  dict_get entries "vendorProductId" = Some (VInt 875824656) ->
  config_layers h config = Ok layers ->
  Forall (fun layer => length KEYCHRON_LAYER <= length layer) layers ->
  length KEYCHRON_LAYER = 96 /\ length GMMK_LAYER = 88
  /\ detect_keyboard h config = Ok (Some "KEYCHRON")
  /\ exists new_config h' new_layers,
      map_config config "KEYCHRON" h = Ok (new_config, h')
      /\ config_getitem h' new_config "vendorProductId" = Ok (VInt 839864388)
      /\ config_getitem h' new_config "name" = Ok (VStr "GMMK Pro")
      /\ config_layers h' new_config = Ok new_layers
      /\ Forall2 (fun layer new_layer => convert_layer "KEYCHRON" layer = Ok new_layer)
           layers new_layers
      /\ Forall (fun new_layer => length new_layer = 88) new_layers.
Proof.
  intros Hc Hid Hlayers Hlong.
  split; [reflexivity|]. split; [reflexivity|]. split.
  { by rewrite (detect_keyboard_eq _ _ _ _ Hc Hid). }
  destruct (map_config_Ok "KEYCHRON" h config entries layers Hc Hlayers Hlong)
    as (new_layers & ext & Hmap & Hconv & Hnew & l & Hdict).
  exists (length h), (h ++ ext), new_layers.
  split; [done|]. split; [|split; [|split; [done|split; [done|]]]].
  - unfold config_getitem, load. rewrite Hdict. simpl.
    unfold dict_getitem. rewrite dict_get_set, decide_False by done.
    change (dest_info "KEYCHRON") with GMMK_INFO. unfold dict_update. simpl.
    by rewrite dict_get_set, decide_True.
  - unfold config_getitem, load. rewrite Hdict. simpl.
    unfold dict_getitem. rewrite dict_get_set, decide_False by done.
    change (dest_info "KEYCHRON") with GMMK_INFO. unfold dict_update. simpl.
    rewrite dict_get_set, decide_False by done.
    by rewrite dict_get_set, decide_True.
  - apply Forall_forall. intros new_layer [i Hi]%list_elem_of_lookup.
    destruct (Forall2_lookup_r _ _ _ _ _ Hconv Hi) as (layer & _ & Hr).
    unfold convert_layer in Hr. by apply map_layer_Ok_length in Hr.
Qed.

Lemma keychron_config_to_gmmk_witness :
  config_layers transparent_config 0 = Ok [replicate 96 "KC_TRNS"]
  /\ exists new_config h' new_layers,
      map_config 0 "KEYCHRON" transparent_config = Ok (new_config, h')
      /\ config_getitem h' new_config "vendorProductId" = Ok (VInt 839864388)
      /\ config_getitem h' new_config "name" = Ok (VStr "GMMK Pro")
      /\ config_layers h' new_config = Ok new_layers
      /\ Forall2 (fun layer new_layer => convert_layer "KEYCHRON" layer = Ok new_layer)
           [replicate 96 "KC_TRNS"] new_layers
      /\ Forall (fun new_layer => length new_layer = 88) new_layers.
Proof.
  split; [reflexivity|].
  apply (keychron_config_to_gmmk transparent_config 0 _ [replicate 96 "KC_TRNS"]
           eq_refl eq_refl eq_refl).
  repeat constructor.
Defined.

(** A Keychron configuration with one layer of 96 keys: the layer that
    [map_config] returns has 88 keys, not 87. *)
Lemma keychron_output_layer_has_88_keys :
  exists new_config h' new_layer,
    config_getitem transparent_config 0 "vendorProductId" = Ok (VInt 875824656)
    /\ config_layers transparent_config 0 = Ok [replicate 96 "KC_TRNS"]
    /\ length KEYCHRON_LAYER <= length (replicate 96 "KC_TRNS")
    /\ map_config 0 "KEYCHRON" transparent_config = Ok (new_config, h')
    /\ config_layers h' new_config = Ok [new_layer]
    /\ length new_layer = 88
    /\ length new_layer <> 87.
Proof.
  do 3 eexists.
  split; [reflexivity|]. split; [reflexivity|]. split; [vm_compute; lia|].
  split; [vm_compute; reflexivity|]. split; [vm_compute; reflexivity|].
  split; [reflexivity | vm_compute; lia].
Qed.

(** C7. For every configuration whose layers are as long as the layout of the
    source keyboard, [map_config] returns a configuration at a location that
    was not in the store, other than the input's; every object of the old
    store, among them the input dictionary, its list of layers and the layers,
    is in the new store unchanged; and every field other than
    [vendorProductId], [name] and [layers] has in the new configuration the
    value it has in the input. *)
Theorem map_config_frame (keyboard : string) (h : heap) (config : loc)
    (layers : list (list string)) :
  config_layers h config = Ok layers ->
  Forall (fun layer => length (from_layer keyboard) <= length layer) layers ->
  exists new_config h',
    map_config config keyboard h = Ok (new_config, h')
    /\ h !! new_config = None
    /\ new_config <> config
    /\ (exists ext, h' = h ++ ext)
    /\ (forall l o, h !! l = Some o -> h' !! l = Some o)
    /\ h' !! config = h !! config
    /\ config_getitem h' config "layers" = config_getitem h config "layers"
    /\ config_layers h' config = Ok layers
    /\ (forall key,
          key <> "vendorProductId" -> key <> "name" -> key <> "layers" ->
          config_getitem h' new_config key = config_getitem h config key).
Proof.
  intros Hlayers Hlong.
  destruct (config_layers_dict _ _ _ Hlayers) as [entries Hc].
  destruct (map_config_Ok keyboard h config entries layers Hc Hlayers Hlong)
    as (new_layers & ext & Hmap & _ & _ & l & Hdict).
  exists (length h), (h ++ ext). split; [done|].
  split; [by apply lookup_ge_None_2|].
  split; [apply lookup_lt_Some in Hc; lia|].
  split; [by exists ext|].
  split; [intros l' o Hl; by apply lookup_app_l_Some|].
  split; [rewrite Hc; by apply lookup_app_l_Some|].
  split.
  { unfold config_getitem, load. by rewrite (lookup_app_l_Some _ _ _ _ Hc), Hc. }
  split; [by apply config_layers_app|].
  intros key Hid Hname Hl.
  unfold config_getitem, load. rewrite Hdict, Hc. simpl. unfold dict_getitem.
  rewrite dict_get_set, decide_False by done.
  rewrite dict_get_update_other; [done|].
  unfold dest_info. destruct (is_keychron keyboard); simpl;
    rewrite !not_elem_of_cons; repeat split; try done; apply not_elem_of_nil.
Qed.

Lemma map_config_frame_witness :
  config_layers transparent_config 0 = Ok [replicate 96 "KC_TRNS"]
  /\ exists new_config h',
      map_config 0 "KEYCHRON" transparent_config = Ok (new_config, h')
      /\ transparent_config !! new_config = None
      /\ new_config <> 0
      /\ (exists ext, h' = transparent_config ++ ext)
      /\ (forall l o, transparent_config !! l = Some o -> h' !! l = Some o)
      /\ h' !! 0 = transparent_config !! 0
      /\ config_getitem h' 0 "layers" = config_getitem transparent_config 0 "layers"
      /\ config_layers h' 0 = Ok [replicate 96 "KC_TRNS"]
      /\ (forall key,
            key <> "vendorProductId" -> key <> "name" -> key <> "layers" ->
            config_getitem h' new_config key
            = config_getitem transparent_config 0 key).
Proof.
  split; [reflexivity|].
  apply (map_config_frame "KEYCHRON" transparent_config 0 [replicate 96 "KC_TRNS"]
           eq_refl).
  repeat constructor.
Defined.

(** A Keychron configuration of the schema whose one layer has 90 keys:
    [map_config] raises [IndexError] and returns no configuration. *)
Lemma map_config_short_layer_returns_nothing :
  detect_keyboard
    [ODict [("vendorProductId", VInt 875824656); ("layers", VRef 1)];
     OList [VRef 2];
     OList (VStr <$> replicate 90 "KC_TRNS")] 0
  = Ok (Some "KEYCHRON")
  /\ config_layers
       [ODict [("vendorProductId", VInt 875824656); ("layers", VRef 1)];
        OList [VRef 2];
        OList (VStr <$> replicate 90 "KC_TRNS")] 0
     = Ok [replicate 90 "KC_TRNS"]
  /\ map_config 0 "KEYCHRON"
       [ODict [("vendorProductId", VInt 875824656); ("layers", VRef 1)];
        OList [VRef 2];
        OList (VStr <$> replicate 90 "KC_TRNS")]
     = Raise IndexError
  /\ ~ (exists new_config h',
          map_config 0 "KEYCHRON"
            [ODict [("vendorProductId", VInt 875824656); ("layers", VRef 1)];
             OList [VRef 2];
             OList (VStr <$> replicate 90 "KC_TRNS")]
          = Ok (new_config, h')).
Proof.
  assert (map_config 0 "KEYCHRON"
            [ODict [("vendorProductId", VInt 875824656); ("layers", VRef 1)];
             OList [VRef 2];
             OList (VStr <$> replicate 90 "KC_TRNS")]
          = Raise IndexError) as Hraise by (vm_compute; reflexivity).
  split; [reflexivity|]. split; [vm_compute; reflexivity|]. split; [exact Hraise|].
  intros (new_config & h' & Hok). rewrite Hraise in Hok. discriminate.
Qed.

Example macros_field_shared :
  exists new_config h',
    map_config 0 "KEYCHRON" transparent_config = Ok (new_config, h')
    /\ config_getitem h' new_config "macros" = Ok (VRef 3)
    /\ config_getitem transparent_config 0 "macros" = Ok (VRef 3).
Proof. do 2 eexists. split; [vm_compute; reflexivity|]. by vm_compute. Qed.

Example ninety_key_layer_raises :
  map_layer (replicate 90 "KC_TRNS") (length GMMK_LAYER)
    (get_mapping KEYCHRON_LAYER GMMK_LAYER) KEYCHRON_FIXES
  = Raise IndexError.
Proof. vm_compute. reflexivity. Qed.

(** * Further properties *)

Example argsort_small :
  argsort Nat.ltb [30; 10; 20; 10] = [1; 3; 2; 0].
Proof. reflexivity. Qed.

Example main_unknown_small :
  main [ODict [("vendorProductId", VInt 1); ("layers", VRef 1)]; OList []] 0
  = ([Stderr "Failed to detect which keyboard this config file is for."], Exit 1).
Proof. reflexivity. Qed.

(** ** More on [get_mapping] *)

Lemma mapping_items_increasing start old new p q a b :
  p < q ->
  mapping_items start old new !! p = Some a ->
  mapping_items start old new !! q = Some b ->
  a.1 < b.1.
Proof.
  revert start p q. induction old as [|key rest IH]; intros start p q Hpq; simpl.
  - by rewrite lookup_nil.
  - assert (forall k c, mapping_items (S start) rest new !! k = Some c -> S start <= c.1)
      as Htail.
    { intros k [i j] Hk. apply list_elem_of_lookup_2 in Hk.
      by apply mapping_items_keys in Hk. }
    destruct (String.eqb key "KC_NO"); [by apply IH|].
    destruct (list_index new key) as [j0|]; [|by apply IH].
    simpl. destruct p as [|p], q as [|q]; simpl; try lia.
    + intros [= <-] Hb. apply Htail in Hb. simpl. lia.
    + apply IH. lia.
Qed.

Lemma mapping_items_length start old new :
  length (mapping_items start old new) <= length old.
Proof.
  revert start. induction old as [|key rest IH]; intros start; simpl; [lia|].
  rewrite length_app. specialize (IH (S start)).
  destruct (String.eqb key "KC_NO"); [simpl; lia|].
  destruct (list_index new key); simpl; lia.
Qed.

(** X1. The pairs of [get_mapping old new] are listed by increasing source
    position, so that is the order in which [map_layer] goes through them;
    every source is a position of [old]; there are at most [len(old)] pairs;
    and a position of [old] that holds ["KC_NO"] is the source of none. *)
Theorem get_mapping_ordered (old new : list string) :
  (forall p q a b,
      p < q ->
      get_mapping old new !! p = Some a ->
      get_mapping old new !! q = Some b ->
      a.1 < b.1)
  /\ (forall i j, (i, j) ∈ get_mapping old new -> i < length old)
  /\ length (get_mapping old new) <= length old
  /\ (forall i,
      old !! i = Some "KC_NO" -> dict_get (get_mapping old new) i = None).
Proof.
  split; [|split; [|split]].
  - rewrite get_mapping_items. intros p q a b. apply mapping_items_increasing.
  - intros i j (key & Hi & _)%elem_of_get_mapping. by apply lookup_lt_Some in Hi.
  - rewrite get_mapping_items. apply mapping_items_length.
  - intros i Hi. apply dict_get_None.
    intros ([i' j] & -> & (key & Hk & Hne & _)%elem_of_get_mapping)%list_elem_of_fmap.
    simpl in Hi. congruence.
Qed.

Lemma distinct_keys_lookup layout i i' key :
  distinct_keys layout ->
  layout !! i = Some key -> layout !! i' = Some key -> key <> "KC_NO" -> i = i'.
Proof.
  unfold distinct_keys. revert i i'.
  induction layout as [|x rest IH]; intros i i' Hnd Hi Hi' Hne; [done|].
  assert (NoDup (filter (fun key => key <> "KC_NO") rest)) as Hrest.
  { destruct (decide (x <> "KC_NO")) as [Hx|Hx].
    - rewrite filter_cons_True in Hnd by done. by apply NoDup_cons in Hnd as [_ ?].
    - by rewrite filter_cons_False in Hnd. }
  assert (forall k, rest !! k = Some key -> x <> key) as Hhead.
  { intros k Hk ->. rewrite filter_cons_True in Hnd by done.
    apply NoDup_cons in Hnd as [Hnot _]. apply Hnot.
    apply list_elem_of_filter. split; [done|]. by apply list_elem_of_lookup_2 in Hk. }
  destruct i as [|i], i' as [|i']; simpl in *.
  - done.
  - injection Hi as ->. by apply Hhead in Hi'.
  - injection Hi' as ->. by apply Hhead in Hi.
  - f_equal. by apply IH.
Qed.

Lemma first_position_distinct layout key j :
  distinct_keys layout -> key <> "KC_NO" ->
  first_position layout key j <-> layout !! j = Some key.
Proof.
  intros Hnd Hne. unfold first_position. split; [by intros [? _]|].
  intros Hj. split; [done|]. intros j' Hlt Hj'.
  pose proof (distinct_keys_lookup _ _ _ _ Hnd Hj Hj' Hne). lia.
Qed.

Lemma get_mapping_distinct_NoDup old new :
  distinct_keys old -> NoDup (get_mapping old new).*2.
Proof.
  intros Hnd. apply NoDup_fmap_2_strong.
  - intros [i j] [i' j'] (key & Hi & Hne & Hj & _)%elem_of_get_mapping
      (key' & Hi' & Hne' & Hj' & _)%elem_of_get_mapping Heq.
    simpl in Heq. subst j'. rewrite Hj in Hj'. injection Hj' as <-.
    f_equal. by apply (distinct_keys_lookup old _ _ key).
  - eapply NoDup_fmap_1. apply get_mapping_NoDup.
Qed.

(** X2. When the key codes of the source layout other than ["KC_NO"] are
    pairwise distinct, [get_mapping] sends no two source positions to the same
    destination. *)
Theorem get_mapping_injective (old new : list string) :
  distinct_keys old ->
  NoDup (get_mapping old new).*2
  /\ forall i i' j,
      (i, j) ∈ get_mapping old new -> (i', j) ∈ get_mapping old new -> i = i'.
Proof.
  intros Hnd. pose proof (get_mapping_distinct_NoDup old new Hnd) as Hinj.
  split; [done|]. intros i i' j. by apply fmap_snd_injective.
Qed.

Lemma get_mapping_injective_witness :
  distinct_keys ["KC_A"; "KC_NO"; "KC_B"; "KC_NO"]
  /\ NoDup (get_mapping ["KC_A"; "KC_NO"; "KC_B"; "KC_NO"] ["KC_B"; "KC_B"; "KC_A"]).*2.
Proof.
  assert (distinct_keys ["KC_A"; "KC_NO"; "KC_B"; "KC_NO"]) as Hnd.
  { apply (bool_decide_unpack _). vm_compute. exact I. }
  split; [exact Hnd|].
  apply (get_mapping_injective _ ["KC_B"; "KC_B"; "KC_A"] Hnd).
Defined.

Lemma get_mapping_swap old new i j :
  distinct_keys old -> distinct_keys new ->
  (i, j) ∈ get_mapping old new -> (j, i) ∈ get_mapping new old.
Proof.
  intros Hold Hnew (key & Hi & Hne & Hj)%elem_of_get_mapping.
  apply elem_of_get_mapping. exists key.
  apply first_position_distinct in Hj; [|done..].
  split; [done|]. split; [done|]. by apply first_position_distinct.
Qed.

(** X3. When the key codes other than ["KC_NO"] are pairwise distinct in both
    layouts, the mapping from [new] to [old] is the mapping from [old] to
    [new] with every pair turned around. *)
Theorem get_mapping_inverse (old new : list string) :
  distinct_keys old -> distinct_keys new ->
  forall i j, (i, j) ∈ get_mapping old new <-> (j, i) ∈ get_mapping new old.
Proof. intros Hold Hnew i j. split; by apply get_mapping_swap. Qed.

Lemma get_mapping_inverse_witness :
  distinct_keys KEYCHRON_LAYER /\ distinct_keys GMMK_LAYER
  /\ ((0, 11) ∈ get_mapping KEYCHRON_LAYER GMMK_LAYER
      <-> (11, 0) ∈ get_mapping GMMK_LAYER KEYCHRON_LAYER).
Proof.
  assert (distinct_keys KEYCHRON_LAYER) as Hk.
  { apply (bool_decide_unpack _). vm_compute. exact I. }
  assert (distinct_keys GMMK_LAYER) as Hg.
  { apply (bool_decide_unpack _). vm_compute. exact I. }
  split; [exact Hk|]. split; [exact Hg|].
  apply (get_mapping_inverse KEYCHRON_LAYER GMMK_LAYER Hk Hg 0 11).
Defined.

(** ** More on [map_layer] *)

(** X4. [map_layer] returns exactly when every source position of the mapping
    is a position of the layer and every pair whose source key is not
    ["KC_NO"] has its destination below [layer_size]; a destination out of
    range is no error when the source key is ["KC_NO"].  When it does not
    return, the exception is [IndexError]. *)
Theorem map_layer_returns_iff (layer : list string) (layer_size : nat)
    (mapping : dict nat nat) (fixes : dict string string) :
  ((exists new_layer, map_layer layer layer_size mapping fixes = Ok new_layer)
   <-> forall idx new_idx,
      (idx, new_idx) ∈ mapping ->
      exists key, layer !! idx = Some key
                  /\ (key <> "KC_NO" -> new_idx < layer_size))
  /\ (forall e, map_layer layer layer_size mapping fixes = Raise e -> e = IndexError).
Proof.
  split.
  - unfold map_layer. rewrite map_layer_loop_Ok. by rewrite length_replicate.
  - intros e. apply map_layer_loop_raise.
Qed.

Example placeholder_out_of_range :
  map_layer ["KC_NO"; "KC_A"] 1 [(0, 7); (1, 0)] KEYCHRON_FIXES = Ok ["KC_A"]
  /\ map_layer ["KC_B"; "KC_A"] 1 [(0, 7); (1, 0)] KEYCHRON_FIXES = Raise IndexError.
Proof. by vm_compute. Qed.

(** X5. With a mapping that sends no two sources to the same destination, the
    layer that [map_layer] returns has [layer_size] keys and is, position by
    position: at the destination of a pair, ["KC_NO"] if the source key is
    ["KC_NO"] and otherwise the source key after the fixup; at a position that
    is no destination, ["KC_NO"]. *)
Theorem map_layer_pointwise (layer : list string) (layer_size : nat)
    (mapping : dict nat nat) (fixes : dict string string) (new_layer : list string) :
  NoDup mapping.*2 ->
  map_layer layer layer_size mapping fixes = Ok new_layer ->
  length new_layer = layer_size
  /\ (forall idx j key,
      (idx, j) ∈ mapping -> layer !! idx = Some key -> j < layer_size ->
      new_layer !! j
      = Some (if String.eqb key "KC_NO" then "KC_NO" else fixup fixes key))
  /\ (forall j,
      j < layer_size -> (forall idx, (idx, j) ∉ mapping) ->
      new_layer !! j = Some "KC_NO").
Proof.
  intros Hinj Hr. pose proof (map_layer_Ok_length _ _ _ _ _ Hr) as Hlen.
  split; [done|]. split.
  - intros idx j key Hin Hk Hj.
    destruct (String.eqb_spec key "KC_NO") as [->|Hne].
    + destruct (lookup_lt_is_Some_2 new_layer j) as [v Hv]; [lia|].
      rewrite Hv. f_equal.
      destruct (map_layer_lookup _ _ _ _ _ _ _ Hr Hv)
        as [[-> _]|(idx' & key' & Hin' & Hk' & Hne' & _)]; [done|].
      rewrite (fmap_snd_injective _ _ _ _ Hinj Hin' Hin) in Hk'. congruence.
    + by apply (map_layer_written _ _ _ _ _ _ _ _ Hinj Hr Hin).
  - intros j Hj Hnone.
    destruct (lookup_lt_is_Some_2 new_layer j) as [v Hv]; [lia|].
    rewrite Hv. f_equal.
    destruct (map_layer_lookup _ _ _ _ _ _ _ Hr Hv)
      as [[-> _]|(idx' & key' & Hin' & _)]; [done|].
    by apply Hnone in Hin'.
Qed.

Lemma map_layer_pointwise_witness :
  NoDup [(0, 2); (1, 0)].*2
  /\ map_layer ["CUSTOM(1)"; "KC_NO"] 3 [(0, 2); (1, 0)] KEYCHRON_FIXES
     = Ok ["KC_NO"; "KC_NO"; "KC_RALT"]
  /\ length ["KC_NO"; "KC_NO"; "KC_RALT"] = 3.
Proof.
  assert (NoDup [(0, 2); (1, 0)].*2) as Hinj.
  { apply (bool_decide_unpack _). vm_compute. exact I. }
  split; [exact Hinj|]. split; [reflexivity|].
  apply (map_layer_pointwise ["CUSTOM(1)"; "KC_NO"] 3 [(0, 2); (1, 0)] KEYCHRON_FIXES
           ["KC_NO"; "KC_NO"; "KC_RALT"] Hinj eq_refl).
Defined.

Lemma map_layer_loop_agree layer1 layer2 fixes mapping (acc : list string) :
  (forall idx j, (idx, j) ∈ mapping -> layer1 !! idx = layer2 !! idx) ->
  for_each (map_layer_step layer1 fixes) mapping acc
  = for_each (map_layer_step layer2 fixes) mapping acc.
Proof.
  revert acc. induction mapping as [|[idx j] rest IH]; intros acc Hagree; [done|].
  cbn [for_each]. rewrite !map_layer_step_eq.
  rewrite (Hagree idx j) by apply list_elem_of_here.
  destruct (layer2 !! idx) as [key|]; [|done].
  assert (forall acc', for_each (map_layer_step layer1 fixes) rest acc'
                       = for_each (map_layer_step layer2 fixes) rest acc') as Hrest.
  { intros acc'. apply IH. intros idx' j' Hin. apply (Hagree idx' j').
    by apply list_elem_of_further. }
  destruct (String.eqb key "KC_NO"); simpl; [apply Hrest|].
  destruct (list_setitem acc j (fixup fixes key)); simpl; [apply Hrest | done].
Qed.

(** X6. [map_layer] reads the layer at the source positions of the mapping
    only: two layers that agree there give the same result, the same
    exception included.  In particular keys behind the last mapped position
    are ignored. *)
Theorem map_layer_agree (layer1 layer2 : list string) (layer_size : nat)
    (mapping : dict nat nat) (fixes : dict string string) :
  (forall idx j, (idx, j) ∈ mapping -> layer1 !! idx = layer2 !! idx) ->
  map_layer layer1 layer_size mapping fixes = map_layer layer2 layer_size mapping fixes.
Proof. intros Hagree. unfold map_layer. by apply map_layer_loop_agree. Qed.

Lemma map_layer_agree_witness :
  (forall idx j, (idx, j) ∈ [(0, 1); (1, 0)] ->
                 ["KC_A"; "KC_B"; "KC_C"] !! idx = ["KC_A"; "KC_B"] !! idx)
  /\ map_layer ["KC_A"; "KC_B"; "KC_C"] 2 [(0, 1); (1, 0)] GMMK_FIXES
     = map_layer ["KC_A"; "KC_B"] 2 [(0, 1); (1, 0)] GMMK_FIXES.
Proof.
  assert (forall idx j, (idx, j) ∈ [(0, 1); (1, 0)] ->
                        ["KC_A"; "KC_B"; "KC_C"] !! idx = ["KC_A"; "KC_B"] !! idx)
    as Hagree.
  { intros idx j Hin.
    apply elem_of_cons in Hin as [[= -> ->]|Hin]; [reflexivity|].
    apply elem_of_cons in Hin as [[= -> ->]|Hin]; [reflexivity|].
    by apply elem_of_nil in Hin. }
  split; [exact Hagree|].
  apply (map_layer_agree ["KC_A"; "KC_B"; "KC_C"] ["KC_A"; "KC_B"] 2
           [(0, 1); (1, 0)] GMMK_FIXES Hagree).
Defined.

(** ** Round trips, position by position *)

Lemma round_trip_lookup layer n1 n2 (m1 m2 : dict nat nat) f1 f2 mid back i :
  NoDup m1.*2 -> NoDup m2.*2 ->
  (forall a b, (a, b) ∈ m1 <-> (b, a) ∈ m2) ->
  placeholder_free f1 ->
  map_layer layer n1 m1 f1 = Ok mid ->
  map_layer mid n2 m2 f2 = Ok back ->
  i < n2 ->
  ((forall j, (i, j) ∉ m1) -> back !! i = Some "KC_NO")
  /\ (forall j key,
      (i, j) ∈ m1 -> layer !! i = Some key ->
      back !! i
      = Some (if String.eqb key "KC_NO" then "KC_NO" else fixup f2 (fixup f1 key))).
Proof.
  intros Hinj1 Hinj2 Hswap Hfree Hmid Hback Hi.
  destruct (lookup_lt_is_Some_2 back i) as [v Hv].
  { by rewrite (map_layer_Ok_length _ _ _ _ _ Hback). }
  split.
  - intros Hnone. rewrite Hv. f_equal.
    destruct (map_layer_lookup _ _ _ _ _ _ _ Hback Hv)
      as [[-> _]|(j' & k' & Hin' & _)]; [done|].
    apply Hswap in Hin'. by apply Hnone in Hin'.
  - intros j key Hin Hk.
    destruct (String.eqb_spec key "KC_NO") as [->|Hne].
    + rewrite Hv. f_equal.
      destruct (map_layer_lookup _ _ _ _ _ _ _ Hback Hv)
        as [[-> _]|(j' & k' & Hin' & Hk' & Hne' & _)]; [done|].
      assert (j' = j) as ->.
      { apply (fmap_snd_injective m2 _ _ i Hinj2); [done | by apply Hswap]. }
      destruct (map_layer_lookup _ _ _ _ _ _ _ Hmid Hk')
        as [[-> _]|(i' & key' & Hin1 & Hk1 & Hne1 & _)]; [done|].
      rewrite (fmap_snd_injective _ _ _ _ Hinj1 Hin1 Hin) in Hk1. congruence.
    + pose proof (map_layer_written _ _ _ _ _ _ _ _ Hinj1 Hmid Hin Hk Hne) as Hj.
      apply (map_layer_written _ _ _ _ _ _ _ _ Hinj2 Hback (proj1 (Hswap _ _) Hin) Hj).
      by apply fixup_placeholder_free.
Qed.

Lemma mapped_position old new i key :
  old !! i = Some key -> key <> "KC_NO" -> key ∈ new ->
  exists j, (i, j) ∈ get_mapping old new.
Proof.
  intros Hi Hne Hin. destruct (list_index new key) as [j|] eqn:E.
  - exists j. apply elem_of_get_mapping. exists key.
    split; [done|]. split; [done|]. by apply list_index_Some.
  - by apply list_index_None in E.
Qed.

Lemma unmapped_position old new i key :
  old !! i = Some key -> key = "KC_NO" \/ key ∉ new ->
  forall j, (i, j) ∉ get_mapping old new.
Proof.
  intros Hi Hkey j (key' & Hi' & Hne & Hj & _)%elem_of_get_mapping.
  rewrite Hi in Hi'. injection Hi' as <-. destruct Hkey as [->|Hnot]; [done|].
  apply Hnot. by apply list_elem_of_lookup_2 in Hj.
Qed.

Lemma keychron_distinct : distinct_keys KEYCHRON_LAYER.
Proof. apply (bool_decide_unpack _). vm_compute. exact I. Qed.

Lemma gmmk_distinct : distinct_keys GMMK_LAYER.
Proof. apply (bool_decide_unpack _). vm_compute. exact I. Qed.

Lemma keychron_keys_in_gmmk :
  Forall (fun key => key = "KC_NO" \/ key ∈ GMMK_LAYER) KEYCHRON_LAYER.
Proof. apply (bool_decide_unpack _). vm_compute. exact I. Qed.

Lemma gmmk_keys_in_keychron :
  Forall (fun key => key = "KC_NO" \/ key = "KC_DEL" \/ key ∈ KEYCHRON_LAYER) GMMK_LAYER.
Proof. apply (bool_decide_unpack _). vm_compute. exact I. Qed.

Lemma keychron_fixes_free : placeholder_free KEYCHRON_FIXES.
Proof. unfold placeholder_free. repeat constructor; simpl; discriminate. Qed.

Lemma fixup_gmmk key : fixup GMMK_FIXES key = key.
Proof. done. Qed.

(** X7. For every Keychron layer at least as long as the Keychron layout, the
    conversion to the GMMK and back returns a layer of 96 keys that holds, at
    each position: ["KC_NO"] where the Keychron layout or the layer has
    ["KC_NO"], and elsewhere the key of the layer after the Keychron fixup.
    So a layer of exactly 96 keys that has ["KC_NO"] wherever the layout has
    it and holds no key of the fixup table comes back unchanged. *)
Theorem keychron_round_trip (layer : list string) :
  length KEYCHRON_LAYER <= length layer ->
  exists gmmk back,
    convert_layer "KEYCHRON" layer = Ok gmmk
    /\ convert_layer "GMMK" gmmk = Ok back
    /\ length back = length KEYCHRON_LAYER
    /\ (forall i k0 key,
        KEYCHRON_LAYER !! i = Some k0 -> layer !! i = Some key ->
        back !! i
        = Some (if String.eqb k0 "KC_NO" || String.eqb key "KC_NO" then "KC_NO"
                else fixup KEYCHRON_FIXES key))
    /\ (length layer = length KEYCHRON_LAYER ->
        (forall i, KEYCHRON_LAYER !! i = Some "KC_NO" -> layer !! i = Some "KC_NO") ->
        (forall key, key ∈ layer -> dict_get KEYCHRON_FIXES key = None) ->
        back = layer).
Proof.
  intros Hlen.
  destruct (convert_layer_Ok "KEYCHRON" layer Hlen) as (gmmk & Hg & Hglen).
  destruct (convert_layer_Ok "GMMK" gmmk) as (back & Hb & Hblen).
  { by rewrite Hglen. }
  change (to_layer "GMMK") with KEYCHRON_LAYER in Hblen.
  assert (forall i k0 key,
             KEYCHRON_LAYER !! i = Some k0 -> layer !! i = Some key ->
             back !! i
             = Some (if String.eqb k0 "KC_NO" || String.eqb key "KC_NO" then "KC_NO"
                     else fixup KEYCHRON_FIXES key)) as Hpoint.
  { intros i k0 key Hk0 Hkey.
    assert (i < length KEYCHRON_LAYER) as Hi by (by apply lookup_lt_Some in Hk0).
    destruct (round_trip_lookup layer _ _ _ _ _ _ gmmk back i
                keychron_to_gmmk_injective gmmk_to_keychron_injective
                (fun a b => conj (get_mapping_swap _ _ a b keychron_distinct gmmk_distinct)
                              (get_mapping_swap _ _ b a gmmk_distinct keychron_distinct))
                keychron_fixes_free Hg Hb Hi) as [Hnone Hsome].
    destruct (String.eqb_spec k0 "KC_NO") as [->|Hne]; simpl.
    - apply Hnone. apply (unmapped_position _ _ _ _ Hk0). by left.
    - destruct (mapped_position KEYCHRON_LAYER GMMK_LAYER i k0 Hk0 Hne) as [j Hin].
      { pose proof keychron_keys_in_gmmk as Hall. rewrite Forall_forall in Hall.
        destruct (Hall k0); [by apply list_elem_of_lookup_2 in Hk0 | done | done]. }
      by rewrite (Hsome j key Hin Hkey), fixup_gmmk. }
  exists gmmk, back. split; [done|]. split; [done|]. split; [done|]. split; [done|].
  intros Heq Hno Hclean. apply list_eq. intros i.
  destruct (layer !! i) as [key|] eqn:Hkey.
  - destruct (lookup_lt_is_Some_2 KEYCHRON_LAYER i) as [k0 Hk0].
    { rewrite <- Heq. by apply lookup_lt_Some in Hkey. }
    rewrite (Hpoint i k0 key Hk0 Hkey). f_equal.
    destruct (String.eqb_spec k0 "KC_NO") as [->|Hne]; simpl.
    + apply Hno in Hk0. congruence.
    + destruct (String.eqb_spec key "KC_NO") as [->|Hne']; [done|].
      unfold fixup. rewrite Hclean; [done|]. by apply list_elem_of_lookup_2 in Hkey.
  - apply lookup_ge_None. apply lookup_ge_None in Hkey. lia.
Qed.

Lemma keychron_round_trip_witness :
  length KEYCHRON_LAYER <= length KEYCHRON_LAYER
  /\ exists gmmk back,
      convert_layer "KEYCHRON" KEYCHRON_LAYER = Ok gmmk
      /\ convert_layer "GMMK" gmmk = Ok back
      /\ length back = length KEYCHRON_LAYER.
Proof.
  split; [lia|].
  destruct (keychron_round_trip KEYCHRON_LAYER (le_n _))
    as (gmmk & back & Hg & Hb & Hlen & _).
  exists gmmk, back. split; [exact Hg|]. split; [exact Hb | exact Hlen].
Defined.

(** X8. For every GMMK layer at least as long as the GMMK layout, the
    conversion to the Keychron and back returns a layer of 88 keys that holds,
    at each position: ["KC_NO"] where the GMMK layout has ["KC_NO"] or
    ["KC_DEL"] or the layer has ["KC_NO"], and elsewhere the key of the layer
    after the Keychron fixup, which the way back applies.  So a layer of
    exactly 88 keys that has ["KC_NO"] at those positions of the layout and
    holds no key of the Keychron fixup table comes back unchanged. *)
Theorem gmmk_round_trip (layer : list string) :
  length GMMK_LAYER <= length layer ->
  exists keychron back,
    convert_layer "GMMK" layer = Ok keychron
    /\ convert_layer "KEYCHRON" keychron = Ok back
    /\ length back = length GMMK_LAYER
    /\ (forall j k0 key,
        GMMK_LAYER !! j = Some k0 -> layer !! j = Some key ->
        back !! j
        = Some (if String.eqb k0 "KC_NO" || String.eqb k0 "KC_DEL"
                   || String.eqb key "KC_NO"
                then "KC_NO" else fixup KEYCHRON_FIXES key))
    /\ (length layer = length GMMK_LAYER ->
        (forall j k0, GMMK_LAYER !! j = Some k0 -> k0 = "KC_NO" \/ k0 = "KC_DEL" ->
                      layer !! j = Some "KC_NO") ->
        (forall key, key ∈ layer -> dict_get KEYCHRON_FIXES key = None) ->
        back = layer).
Proof.
  intros Hlen.
  destruct (convert_layer_Ok "GMMK" layer Hlen) as (keychron & Hk & Hklen).
  destruct (convert_layer_Ok "KEYCHRON" keychron) as (back & Hb & Hblen).
  { by rewrite Hklen. }
  change (to_layer "KEYCHRON") with GMMK_LAYER in Hblen.
  assert (forall j k0 key,
             GMMK_LAYER !! j = Some k0 -> layer !! j = Some key ->
             back !! j
             = Some (if String.eqb k0 "KC_NO" || String.eqb k0 "KC_DEL"
                        || String.eqb key "KC_NO"
                     then "KC_NO" else fixup KEYCHRON_FIXES key)) as Hpoint.
  { intros j k0 key Hk0 Hkey.
    assert (j < length GMMK_LAYER) as Hj by (by apply lookup_lt_Some in Hk0).
    destruct (round_trip_lookup layer _ _ _ _ GMMK_FIXES KEYCHRON_FIXES keychron back j
                gmmk_to_keychron_injective keychron_to_gmmk_injective
                (fun a b => conj (get_mapping_swap _ _ a b gmmk_distinct keychron_distinct)
                              (get_mapping_swap _ _ b a keychron_distinct gmmk_distinct))
                (Forall_nil_2 _) Hk Hb Hj) as [Hnone Hsome].
    pose proof gmmk_keys_in_keychron as Hall. rewrite Forall_forall in Hall.
    destruct (String.eqb_spec k0 "KC_NO") as [->|Hne]; simpl.
    { apply Hnone. apply (unmapped_position _ _ _ _ Hk0). by left. }
    destruct (String.eqb_spec k0 "KC_DEL") as [->|Hne']; simpl.
    { apply Hnone. apply (unmapped_position _ _ _ _ Hk0). right.
      apply (bool_decide_unpack _). vm_compute. exact I. }
    destruct (mapped_position GMMK_LAYER KEYCHRON_LAYER j k0 Hk0 Hne) as [i Hin].
    { destruct (Hall k0) as [?|[?|?]]; [by apply list_elem_of_lookup_2 in Hk0|done..]. }
    by rewrite (Hsome i key Hin Hkey). }
  exists keychron, back.
  split; [done|]. split; [done|]. split; [done|]. split; [done|].
  intros Heq Hno Hclean. apply list_eq. intros j.
  destruct (layer !! j) as [key|] eqn:Hkey.
  - destruct (lookup_lt_is_Some_2 GMMK_LAYER j) as [k0 Hk0].
    { rewrite <- Heq. by apply lookup_lt_Some in Hkey. }
    rewrite (Hpoint j k0 key Hk0 Hkey). f_equal.
    destruct (String.eqb_spec k0 "KC_NO") as [->|Hne]; simpl.
    { rewrite (Hno j "KC_NO") in Hkey; [congruence | done | by left]. }
    destruct (String.eqb_spec k0 "KC_DEL") as [->|Hne']; simpl.
    { rewrite (Hno j "KC_DEL") in Hkey; [congruence | done | by right]. }
    destruct (String.eqb_spec key "KC_NO") as [->|Hne'']; [done|].
    unfold fixup. rewrite Hclean; [done|]. by apply list_elem_of_lookup_2 in Hkey.
  - apply lookup_ge_None. apply lookup_ge_None in Hkey. lia.
Qed.

Lemma gmmk_round_trip_witness :
  length GMMK_LAYER <= length GMMK_LAYER
  /\ exists keychron back,
      convert_layer "GMMK" GMMK_LAYER = Ok keychron
      /\ convert_layer "KEYCHRON" keychron = Ok back
      /\ length back = length GMMK_LAYER.
Proof.
  split; [lia|].
  destruct (gmmk_round_trip GMMK_LAYER (le_n _))
    as (keychron & back & Hk & Hb & Hlen & _).
  exists keychron, back. split; [exact Hk|]. split; [exact Hb | exact Hlen].
Defined.

Example gmmk_custom_key_round_trip :
  exists keychron back,
    convert_layer "GMMK" (<[75 := "CUSTOM(0)"]> GMMK_LAYER) = Ok keychron
    /\ convert_layer "KEYCHRON" keychron = Ok back
    /\ keychron !! 82 = Some "CUSTOM(0)"
    /\ back !! 75 = Some "KC_LALT".
Proof. do 2 eexists. split; [vm_compute; reflexivity|]. by vm_compute. Qed.

(** ** More on [map_config] *)

Lemma last_position_mapped keyboard :
  exists j, (pred (length (from_layer keyboard)), j)
            ∈ get_mapping (from_layer keyboard) (to_layer keyboard).
Proof.
  unfold from_layer, to_layer. destruct (is_keychron keyboard).
  - exists 5. apply dict_get_Some_elem. vm_compute. reflexivity.
  - exists 10. apply dict_get_Some_elem. vm_compute. reflexivity.
Qed.

Lemma convert_layer_short keyboard layer :
  length layer < length (from_layer keyboard) ->
  convert_layer keyboard layer = Raise IndexError.
Proof.
  intros Hshort. unfold convert_layer.
  destruct (map_layer layer (length (to_layer keyboard))
              (get_mapping (from_layer keyboard) (to_layer keyboard))
              (source_fixes keyboard)) as [r|e] eqn:E.
  - exfalso.
    assert (covers layer (get_mapping (from_layer keyboard) (to_layer keyboard)))
      as Hcov.
    { apply (map_layer_Ok_iff _ _ _ (source_fixes keyboard) (get_mapping_valid _ _)).
      by exists r. }
    destruct (last_position_mapped keyboard) as [j Hin].
    unfold covers in Hcov. rewrite Forall_forall in Hcov.
    apply Hcov in Hin. simpl in Hin. lia.
  - f_equal. by apply map_layer_loop_raise in E.
Qed.

Lemma map_layer_at_Raise layer_size mapping fixes acc h v keys e :
  read_layer h v = Ok keys ->
  map_layer keys layer_size mapping fixes = Raise e ->
  map_layer_at layer_size mapping fixes (acc, h) v = Raise e.
Proof. intros Hkeys Hraise. unfold map_layer_at. by rewrite Hkeys; simpl; rewrite Hraise. Qed.

Lemma map_layer_at_loop_Raise layer_size mapping fixes h items layers :
  map_result (read_layer h) items = Ok layers ->
  Exists (fun l => map_layer l layer_size mapping fixes = Raise IndexError) layers ->
  forall ext acc,
    for_each (map_layer_at layer_size mapping fixes) items (acc, h ++ ext)
    = Raise IndexError.
Proof.
  revert layers. induction items as [|v rest IH]; intros layers.
  - intros [= <-] Hex. by apply Exists_nil in Hex.
  - intros (keys & layers' & Hkeys & Hrest & ->)%map_result_cons_inv Hex ext acc.
    cbn [for_each].
    destruct (map_layer keys layer_size mapping fixes) as [nl|e] eqn:Hnl.
    + rewrite (map_layer_at_Ok _ _ _ _ _ _ _ _ (read_layer_app _ ext _ _ Hkeys) Hnl).
      simpl. rewrite <- (app_assoc h ext). apply (IH layers'); [done|].
      apply Exists_cons in Hex as [Hhd|Htl]; [congruence | done].
    + pose proof (map_layer_loop_raise _ _ _ _ _ Hnl) as ->.
      by rewrite (map_layer_at_Raise _ _ _ _ _ _ _ _ (read_layer_app _ ext _ _ Hkeys) Hnl).
Qed.

Lemma map_config_short keyboard h config layers :
  config_layers h config = Ok layers ->
  Exists (fun layer => length layer < length (from_layer keyboard)) layers ->
  map_config config keyboard h = Raise IndexError.
Proof.
  intros Hlayers Hshort.
  destruct (config_layers_dict _ _ _ Hlayers) as [entries Hc].
  unfold config_layers in Hlayers.
  apply bind_Ok_inv in Hlayers as (v & Hv & (items & Hitems & Hread)%bind_Ok_inv).
  rewrite map_config_eq. unfold _map_config, load. rewrite Hc. simpl. unfold alloc.
  rewrite dict_update_at_middle. simpl.
  rewrite (config_getitem_app _ _ _ _ _ Hv). simpl.
  rewrite (read_layers_app _ _ _ _ Hitems). simpl.
  rewrite (map_layer_at_loop_Raise _ _ _ _ _ _ Hread); [done|].
  eapply Exists_impl; [exact Hshort|]. intros layer Hlen.
  by apply (convert_layer_short keyboard).
Qed.

(** X9. On a configuration of the schema, [map_config] returns exactly when
    every layer is at least as long as the layout of the source keyboard (96
    keys for the Keychron, 88 for the GMMK); with one layer shorter than that
    it raises [IndexError] and returns no configuration, the layers before the
    short one included. *)
Theorem map_config_returns_iff (keyboard : string) (h : heap) (config : loc)
    (layers : list (list string)) :
  config_layers h config = Ok layers ->
  ((exists new_config h', map_config config keyboard h = Ok (new_config, h'))
   <-> Forall (fun layer => length (from_layer keyboard) <= length layer) layers)
  /\ (Exists (fun layer => length layer < length (from_layer keyboard)) layers ->
      map_config config keyboard h = Raise IndexError).
Proof.
  intros Hlayers. split; [split|].
  - intros (new_config & h' & Hok).
    destruct (decide (Forall (fun layer => length (from_layer keyboard) <= length layer)
                        layers)) as [Hall|Hnot]; [done|].
    apply not_Forall_Exists in Hnot; [|apply _].
    rewrite (map_config_short keyboard h config layers) in Hok; [done..|].
    eapply Exists_impl; [exact Hnot|]. simpl. intros layer Hlen. lia.
  - intros Hall. destruct (config_layers_dict _ _ _ Hlayers) as [entries Hc].
    destruct (map_config_Ok keyboard h config entries layers Hc Hlayers Hall)
      as (new_layers & ext & Hmap & _). by exists (length h), (h ++ ext).
  - by apply map_config_short.
Qed.

Lemma map_config_returns_iff_witness :
  config_layers small_heap 0 = Ok [KEYCHRON_LAYER]
  /\ ((exists new_config h', map_config 0 "GMMK" small_heap = Ok (new_config, h'))
      <-> Forall (fun layer => length (from_layer "GMMK") <= length layer)
            [KEYCHRON_LAYER]).
Proof.
  split; [reflexivity|].
  apply (map_config_returns_iff "GMMK" small_heap 0 [KEYCHRON_LAYER] eq_refl).
Defined.

Example ninety_key_config_raises :
  map_config 0 "KEYCHRON"
    [ODict [("vendorProductId", VInt 875824656); ("layers", VRef 1)];
     OList [VRef 2];
     OList (VStr <$> replicate 90 "KC_TRNS")]
  = Raise IndexError.
Proof. vm_compute. reflexivity. Qed.

(** X10. A configuration dictionary without a [layers] field makes
    [map_config] raise [KeyError], for either keyboard. *)
Theorem map_config_no_layers (keyboard : string) (h : heap) (config : loc)
    (entries : dict string value) :
  h !! config = Some (ODict entries) ->
  dict_get entries "layers" = None ->
  map_config config keyboard h = Raise KeyError.
Proof.
  intros Hc Hnone. rewrite map_config_eq. unfold _map_config, load.
  rewrite Hc. simpl. unfold alloc. rewrite dict_update_at_middle. simpl.
  unfold config_getitem, load. rewrite (lookup_app_l_Some _ _ _ _ Hc). simpl.
  unfold dict_getitem. by rewrite Hnone.
Qed.

Lemma map_config_no_layers_witness :
  [ODict [("vendorProductId", VInt 875824656)]] !! 0
  = Some (ODict [("vendorProductId", VInt 875824656)])
  /\ map_config 0 "KEYCHRON" [ODict [("vendorProductId", VInt 875824656)]]
     = Raise KeyError.
Proof.
  split; [reflexivity|].
  apply (map_config_no_layers "KEYCHRON" [ODict [("vendorProductId", VInt 875824656)]]
           0 [("vendorProductId", VInt 875824656)] eq_refl eq_refl).
Defined.

Lemma config_getitem_dict h config entries key :
  h !! config = Some (ODict entries) ->
  config_getitem h config key = dict_getitem entries key.
Proof. intros Hc. unfold config_getitem, load. by rewrite Hc. Qed.

Lemma dest_info_fields keyboard (entries : dict string value) l :
  dict_get (dict_update (dict_update entries (dest_info keyboard)) [("layers", VRef l)])
    "vendorProductId"
  = Some (VInt (if is_keychron keyboard then 839864388 else 875824656))
  /\ dict_get (dict_update (dict_update entries (dest_info keyboard)) [("layers", VRef l)])
       "name"
     = Some (VStr (if is_keychron keyboard then "GMMK Pro"
                   else "Keyboard 81 Pro/Q1 Pro ANSI RGB Knob")).
Proof.
  unfold dest_info, dict_update. destruct (is_keychron keyboard); simpl;
    rewrite !dict_get_set; by split.
Qed.

(** X11. For either source keyboard and every configuration of the schema
    whose layers are as long as the source layout, the configuration that
    [map_config] returns carries the identifier and the name of the other
    keyboard; has the conversions of the input layers, in the same order, each
    as long as the other keyboard's layout; is detected by [detect_keyboard]
    as the other keyboard; and can be given to [map_config] again as such. *)
Theorem map_config_other_keyboard (keyboard : string) (h : heap) (config : loc)
    (layers : list (list string)) :
  config_layers h config = Ok layers ->
  Forall (fun layer => length (from_layer keyboard) <= length layer) layers ->
  exists new_config h' new_layers,
    map_config config keyboard h = Ok (new_config, h')
    /\ config_getitem h' new_config "vendorProductId"
       = Ok (VInt (if is_keychron keyboard then 839864388 else 875824656))
    /\ config_getitem h' new_config "name"
       = Ok (VStr (if is_keychron keyboard then "GMMK Pro"
                   else "Keyboard 81 Pro/Q1 Pro ANSI RGB Knob"))
    /\ config_layers h' new_config = Ok new_layers
    /\ Forall2 (fun layer new_layer => convert_layer keyboard layer = Ok new_layer)
         layers new_layers
    /\ Forall (fun new_layer => length new_layer = length (to_layer keyboard)) new_layers
    /\ detect_keyboard h' new_config
       = Ok (Some (if is_keychron keyboard then "GMMK" else "KEYCHRON"))
    /\ exists again h'',
        map_config new_config (if is_keychron keyboard then "GMMK" else "KEYCHRON") h'
        = Ok (again, h'').
Proof.
  intros Hlayers Hlong. destruct (config_layers_dict _ _ _ Hlayers) as [entries Hc].
  destruct (map_config_Ok keyboard h config entries layers Hc Hlayers Hlong)
    as (new_layers & ext & Hmap & Hconv & Hnew & l & Hdict).
  destruct (dest_info_fields keyboard entries l) as [Hid Hname].
  assert (Forall (fun new_layer => length new_layer = length (to_layer keyboard))
            new_layers) as Hlens.
  { apply Forall_forall. intros new_layer [i Hi]%list_elem_of_lookup.
    destruct (Forall2_lookup_r _ _ _ _ _ Hconv Hi) as (layer & _ & Hr).
    unfold convert_layer in Hr. by apply map_layer_Ok_length in Hr. }
  exists (length h), (h ++ ext), new_layers.
  split; [done|]. split; [|split; [|split; [done|split; [done|split; [done|split]]]]].
  - rewrite (config_getitem_dict _ _ _ _ Hdict). unfold dict_getitem. by rewrite Hid.
  - rewrite (config_getitem_dict _ _ _ _ Hdict). unfold dict_getitem. by rewrite Hname.
  - rewrite (detect_keyboard_eq _ _ _ _ Hdict Hid).
    by destruct (is_keychron keyboard).
  - destruct (map_config_Ok (if is_keychron keyboard then "GMMK" else "KEYCHRON")
                (h ++ ext) (length h) _ new_layers Hdict Hnew)
      as (nl2 & ext2 & Hmap2 & _).
    + eapply Forall_impl; [exact Hlens|]. simpl. intros nl ->.
      unfold from_layer, to_layer. by destruct (is_keychron keyboard).
    + by eexists _, _.
Qed.

Lemma map_config_other_keyboard_witness :
  config_layers small_heap 0 = Ok [KEYCHRON_LAYER]
  /\ exists new_config h' new_layers,
      map_config 0 "GMMK" small_heap = Ok (new_config, h')
      /\ config_getitem h' new_config "vendorProductId" = Ok (VInt 875824656)
      /\ config_layers h' new_config = Ok new_layers
      /\ detect_keyboard h' new_config = Ok (Some "KEYCHRON").
Proof.
  split; [reflexivity|].
  assert (Forall (fun layer => length (from_layer "GMMK") <= length layer)
            [KEYCHRON_LAYER]) as Hlong.
  { constructor; [vm_compute; lia | constructor]. }
  destruct (map_config_other_keyboard "GMMK" small_heap 0 [KEYCHRON_LAYER] eq_refl Hlong)
    as (new_config & h' & new_layers & Hmap & Hid & _ & Hnew & _ & _ & Hdetect & _).
  exists new_config, h', new_layers.
  split; [exact Hmap|]. split; [exact Hid|]. split; [exact Hnew | exact Hdetect].
Defined.

(** ** [main] *)

(** X12. When the [vendorProductId] of the configuration equals neither
    identifier, [main] writes the one line of failure on standard error,
    nothing on standard output, and exits with status 1. *)
Theorem main_unknown_keyboard (h : heap) (config : loc)
    (entries : dict string value) (v : value) :
  h !! config = Some (ODict entries) ->
  dict_get entries "vendorProductId" = Some v ->
  value_eq v (VInt 875824656) = false ->
  value_eq v (VInt 839864388) = false ->
  main h config
  = ([Stderr "Failed to detect which keyboard this config file is for."], Exit 1).
Proof.
  intros Hc Hv Hk Hg. unfold main.
  by rewrite (detect_keyboard_eq _ _ _ _ Hc Hv), Hk, Hg.
Qed.

Lemma main_unknown_keyboard_witness :
  [ODict [("vendorProductId", VInt 1)]] !! 0 = Some (ODict [("vendorProductId", VInt 1)])
  /\ main [ODict [("vendorProductId", VInt 1)]] 0
     = ([Stderr "Failed to detect which keyboard this config file is for."], Exit 1).
Proof.
  split; [reflexivity|].
  apply (main_unknown_keyboard [ODict [("vendorProductId", VInt 1)]] 0
           [("vendorProductId", VInt 1)] (VInt 1) eq_refl eq_refl eq_refl eq_refl).
Defined.

(** X13. On a configuration of the schema, whose layers are lists of
    strings, a configuration that [main] writes on standard output is the one
    [map_config] returned for the detected keyboard; then it is the only one
    written, the last line on standard error is ["Done."], and [main]
    returns.  A run on such a configuration that ends in [sys.exit] or an
    exception has written nothing on standard output. *)
Theorem main_stdout (h : heap) (config : loc) (layers : list (list string))
    (new_config : loc) (h' : heap) :
  config_layers h config = Ok layers ->
  Stdout new_config h' ∈ (main h config).1 ->
  (main h config).2 = Returned
  /\ exists keyboard lines,
      detect_keyboard h config = Ok (Some keyboard)
      /\ map_config config keyboard h = Ok (new_config, h')
      /\ (main h config).1
         = (Stderr <$> lines) ++ [Stdout new_config h'; Stderr "Done."].
Proof.
  intros _.
  unfold main. destruct (detect_keyboard h config) as [[keyboard|]|e]; simpl.
  - assert (exists lines, announce_plan keyboard [] = Stderr <$> lines) as [lines Hlines].
    { unfold announce_plan, log.
      destruct (String.eqb keyboard "KEYCHRON"); [by eexists [_; _]|].
      destruct (String.eqb keyboard "GMMK"); [by eexists [_; _] | by exists []]. }
    rewrite Hlines.
    destruct (map_config config keyboard h) as [[c1 h1]|e] eqn:Hmap; simpl.
    + unfold log, print_as_json. rewrite !elem_of_app, !list_elem_of_singleton.
      intros [[Hin|Heq]|Heq]; try discriminate.
      * apply list_elem_of_fmap in Hin as (line & Heq & _). discriminate.
      * injection Heq as -> ->. split; [done|]. exists keyboard, lines.
        split; [done|]. split; [done|]. by rewrite <- app_assoc.
    + intros (line & Heq & _)%list_elem_of_fmap. discriminate.
  - unfold log. simpl. rewrite list_elem_of_singleton. discriminate.
  - by intros ?%elem_of_nil.
Qed.

Lemma main_stdout_witness :
  config_layers small_heap 0 = Ok [KEYCHRON_LAYER]
  /\ exists new_config h',
      Stdout new_config h' ∈ (main small_heap 0).1
      /\ (main small_heap 0).2 = Returned.
Proof.
  split; [reflexivity|].
  assert (exists new_config h', Stdout new_config h' ∈ (main small_heap 0).1)
    as (new_config & h' & Hin).
  { do 2 eexists. vm_compute. do 2 apply list_elem_of_further. apply list_elem_of_here. }
  exists new_config, h'. split; [exact Hin|].
  apply (main_stdout small_heap 0 [KEYCHRON_LAYER] new_config h' eq_refl Hin).
Defined.

(** X14. On a configuration of the schema that [detect_keyboard] takes for
    the Keychron or the GMMK and whose layers are as long as that keyboard's
    layout, [main] writes the two lines that announce the plan, then the
    configuration returned by [map_config] on standard output, then
    ["Done."], and returns. *)
Theorem main_converts (keyboard : string) (h : heap) (config : loc)
    (layers : list (list string)) :
  detect_keyboard h config = Ok (Some keyboard) ->
  config_layers h config = Ok layers ->
  Forall (fun layer => length (from_layer keyboard) <= length layer) layers ->
  exists new_config h',
    map_config config keyboard h = Ok (new_config, h')
    /\ main h config
       = ([Stderr (if is_keychron keyboard then "Detected Keychron Q1 Pro config."
                   else "Detected GMMK Pro config.");
           Stderr (if is_keychron keyboard then "Mapping to a GMMK Pro config..."
                   else "Mapping to a Keychron Q1 Pro config...");
           Stdout new_config h';
           Stderr "Done."],
          Returned).
Proof.
  intros Hdetect Hlayers Hlong.
  destruct (config_layers_dict _ _ _ Hlayers) as [entries Hc].
  destruct (map_config_Ok keyboard h config entries layers Hc Hlayers Hlong)
    as (new_layers & ext & Hmap & _).
  exists (length h), (h ++ ext). split; [done|].
  unfold main. rewrite Hdetect, Hmap.
  assert (keyboard = "KEYCHRON" \/ keyboard = "GMMK") as [->| ->]; [|done..].
  unfold detect_keyboard in Hdetect.
  destruct (config_getitem h config "vendorProductId") as [a|]; [|discriminate].
  simpl in Hdetect.
  destruct (value_eq a (VInt 875824656)); [left; congruence|].
  destruct (value_eq a (VInt 839864388)); [right; congruence | discriminate].
Qed.

Lemma main_converts_witness :
  detect_keyboard small_heap 0 = Ok (Some "KEYCHRON")
  /\ config_layers small_heap 0 = Ok [KEYCHRON_LAYER]
  /\ exists new_config h',
      map_config 0 "KEYCHRON" small_heap = Ok (new_config, h')
      /\ main small_heap 0
         = ([Stderr "Detected Keychron Q1 Pro config.";
             Stderr "Mapping to a GMMK Pro config...";
             Stdout new_config h';
             Stderr "Done."],
            Returned).
Proof.
  split; [reflexivity|]. split; [reflexivity|].
  apply (main_converts "KEYCHRON" small_heap 0 [KEYCHRON_LAYER] eq_refl eq_refl).
  repeat constructor.
Defined.

(** ** [argsort] *)

Lemma enumerate_from_fst {A : Type} start (l : list A) :
  (enumerate_from start l).*1 = seq start (length l).
Proof.
  revert start. induction l as [|x rest IH]; intros start; simpl; [done|].
  by rewrite IH.
Qed.

Lemma elem_of_enumerate_from {A : Type} start (l : list A) i x :
  (i, x) ∈ enumerate_from start l <-> start <= i /\ l !! (i - start) = Some x.
Proof.
  revert start. induction l as [|y rest IH]; intros start; simpl.
  - rewrite elem_of_nil. split; [done | by intros [_ ?]].
  - rewrite elem_of_cons, IH. split.
    + intros [[= -> ->]|[Hle Hx]].
      * by rewrite Nat.sub_diag.
      * split; [lia|]. by replace (i - start) with (S (i - S start)) by lia.
    + intros [Hle Hx]. destruct (decide (i = start)) as [->|Hne].
      * left. rewrite Nat.sub_diag in Hx. by injection Hx as ->.
      * right. split; [lia|].
        by replace (i - start) with (S (i - S start)) in Hx by lia.
Qed.

Section Sorting.
Context {A B : Type} (lt : B -> B -> bool).

Lemma insort_Permutation (x : A * B) l : insort lt x l ≡ₚ x :: l.
Proof.
  induction l as [|y rest IH]; simpl; [done|].
  destruct (lt x.2 y.2); [done|]. rewrite IH. apply Permutation_swap.
Qed.

Lemma sorted_by_key_fold_Permutation (items acc : list (A * B)) :
  fold_left (fun acc x => insort lt x acc) items acc ≡ₚ acc ++ items.
Proof.
  revert acc. induction items as [|x rest IH]; intros acc; simpl.
  - by rewrite app_nil_r.
  - rewrite IH, insort_Permutation. simpl. apply Permutation_middle.
Qed.

Lemma sorted_by_key_Permutation (items : list (A * B)) :
  sorted_by_key lt items ≡ₚ items.
Proof. unfold sorted_by_key. by rewrite sorted_by_key_fold_Permutation. Qed.
End Sorting.

(** X15. For a comparison that is a strict weak order (irreflexive,
    transitive, and with a transitive "neither is smaller"), as [<] on
    integers or on strings, [argsort seq] is a rearrangement of the positions
    [0 .. len(seq) - 1]: it has the length of [seq], holds each position of
    [seq] once and nothing else. *)
Theorem argsort_permutation {B : Type} (lt : B -> B -> bool) (seq : list B) :
  (forall a, lt a a = false) ->
  (forall a b c, lt a b = true -> lt b c = true -> lt a c = true) ->
  (forall a b c, lt a b = false -> lt b c = false -> lt a c = false) ->
  argsort lt seq ≡ₚ List.seq 0 (length seq)
  /\ length (argsort lt seq) = length seq
  /\ NoDup (argsort lt seq)
  /\ forall i, i ∈ argsort lt seq <-> i < length seq.
Proof.
  intros _ _ _.
  assert (argsort lt seq ≡ₚ List.seq 0 (length seq)) as Hperm.
  { unfold argsort, enumerate.
    by rewrite sorted_by_key_Permutation, enumerate_from_fst. }
  split; [done|]. split; [|split].
  - by rewrite Hperm, length_seq.
  - rewrite Hperm. apply NoDup_seq.
  - intros i. rewrite Hperm, elem_of_seq. lia.
Qed.

Lemma argsort_permutation_witness :
  (forall a, Nat.ltb a a = false)
  /\ (forall a b c, Nat.ltb a b = true -> Nat.ltb b c = true -> Nat.ltb a c = true)
  /\ (forall a b c, Nat.ltb a b = false -> Nat.ltb b c = false -> Nat.ltb a c = false)
  /\ argsort Nat.ltb [30; 10; 20; 10] ≡ₚ List.seq 0 4
  /\ length (argsort Nat.ltb [30; 10; 20; 10]) = 4.
Proof.
  assert (forall a, Nat.ltb a a = false) as Hirr.
  { intros a. apply Nat.ltb_irrefl. }
  assert (forall a b c, Nat.ltb a b = true -> Nat.ltb b c = true -> Nat.ltb a c = true)
    as Htrans.
  { intros a b c Hab Hbc. apply Nat.ltb_lt in Hab, Hbc. apply Nat.ltb_lt. lia. }
  assert (forall a b c, Nat.ltb a b = false -> Nat.ltb b c = false -> Nat.ltb a c = false)
    as Hinc.
  { intros a b c Hab Hbc. apply Nat.ltb_ge in Hab, Hbc. apply Nat.ltb_ge. lia. }
  split; [exact Hirr|]. split; [exact Htrans|]. split; [exact Hinc|].
  destruct (argsort_permutation Nat.ltb [30; 10; 20; 10] Hirr Htrans Hinc)
    as (Hperm & Hlen & _).
  split; [exact Hperm | exact Hlen].
Defined.

Section StableSorting.
Context {B : Type} (lt : B -> B -> bool).
Hypothesis lt_trans : forall a b c, lt a b = true -> lt b c = true -> lt a c = true.
Hypothesis lt_incomparable_trans :
  forall a b c, lt a b = false -> lt b c = false -> lt a c = false.

Lemma insort_sorted (x : nat * B) l :
  StronglySorted (sorts_before lt) l ->
  Forall (fun y => y.1 < x.1) l ->
  StronglySorted (sorts_before lt) (insort lt x l).
Proof.
  induction l as [|y rest IH]; simpl; intros Hsorted Hsmall.
  - repeat constructor.
  - apply StronglySorted_cons in Hsorted as [Hy Hrest].
    apply Forall_cons in Hsmall as [Hyx Hsmall].
    destruct (lt x.2 y.2) eqn:Hxy.
    + apply StronglySorted_cons. split; [|by apply StronglySorted_cons].
      apply Forall_cons. split; [by left|].
      eapply Forall_impl; [exact Hy|]. intros r [Hyr|[Hry _]]; left.
      * by apply (lt_trans _ y.2).
      * destruct (lt x.2 r.2) eqn:Hxr; [done|].
        by rewrite (lt_incomparable_trans _ _ _ Hxr Hry) in Hxy.
    + apply StronglySorted_cons. split; [|by apply IH].
      rewrite insort_Permutation. apply Forall_cons. split; [by right | done].
Qed.

Lemma sorted_by_key_fold_sorted start (seq : list B) (acc : list (nat * B)) :
  StronglySorted (sorts_before lt) acc ->
  Forall (fun y => y.1 < start) acc ->
  StronglySorted (sorts_before lt)
    (fold_left (fun acc x => insort lt x acc) (enumerate_from start seq) acc).
Proof.
  revert start acc. induction seq as [|b rest IH]; intros start acc Hsorted Hsmall; [done|].
  simpl. apply IH.
  - by apply insort_sorted.
  - rewrite insort_Permutation. apply Forall_cons. split; [simpl; lia|].
    eapply Forall_impl; [exact Hsmall|]. simpl. intros y. lia.
Qed.

Lemma StronglySorted_lookup_lt {C : Type} (R : C -> C -> Prop) (l : list C) p q a b :
  StronglySorted R l -> p < q -> l !! p = Some a -> l !! q = Some b -> R a b.
Proof.
  intros Hsorted. revert p q. induction Hsorted as [|x rest Hrest IH Hall]; intros p q Hpq.
  - by rewrite lookup_nil.
  - destruct p as [|p], q as [|q]; simpl; try lia.
    + intros [= ->] Hb. rewrite Forall_forall in Hall.
      apply Hall. by apply list_elem_of_lookup_2 in Hb.
    + apply IH. lia.
Qed.

(** X16. For a comparison that is transitive and whose "neither is smaller"
    is transitive too, as [<] on integers or on strings, [argsort seq] lists
    the positions of [seq] by their elements, and positions with elements of
    which neither is smaller in the order of the positions: of two positions
    in the result, the earlier has the smaller element, or neither element is
    smaller and it is the smaller position. *)
Theorem argsort_stable (seq : list B) (p q i j : nat) :
  p < q ->
  argsort lt seq !! p = Some i ->
  argsort lt seq !! q = Some j ->
  exists a b,
    seq !! i = Some a /\ seq !! j = Some b
    /\ (lt a b = true \/ (lt b a = false /\ i < j)).
Proof.
  intros Hpq Hp Hq. unfold argsort in Hp, Hq.
  rewrite list_lookup_fmap in Hp, Hq.
  destruct (sorted_by_key lt (enumerate seq) !! p) as [[i' a]|] eqn:Ep; [|done].
  destruct (sorted_by_key lt (enumerate seq) !! q) as [[j' b]|] eqn:Eq; [|done].
  simpl in Hp, Hq. injection Hp as ->. injection Hq as ->.
  assert (forall k c, sorted_by_key lt (enumerate seq) !! k = Some c -> seq !! c.1 = Some c.2)
    as Hfrom.
  { intros k [n c] Hk. apply list_elem_of_lookup_2 in Hk.
    rewrite sorted_by_key_Permutation in Hk.
    apply elem_of_enumerate_from in Hk as [_ Hc]. by rewrite Nat.sub_0_r in Hc. }
  exists a, b. split; [apply (Hfrom _ _ Ep)|]. split; [apply (Hfrom _ _ Eq)|].
  apply (StronglySorted_lookup_lt (sorts_before lt)
           (sorted_by_key lt (enumerate seq)) p q (i, a) (j, b)); [|done..].
  unfold sorted_by_key, enumerate. apply sorted_by_key_fold_sorted; constructor.
Qed.
End StableSorting.

Lemma argsort_stable_witness :
  (forall a b c, Nat.ltb a b = true -> Nat.ltb b c = true -> Nat.ltb a c = true)
  /\ (forall a b c, Nat.ltb a b = false -> Nat.ltb b c = false -> Nat.ltb a c = false)
  /\ argsort Nat.ltb [30; 10; 20; 10] = [1; 3; 2; 0]
  /\ exists a b,
      [30; 10; 20; 10] !! 1 = Some a /\ [30; 10; 20; 10] !! 3 = Some b
      /\ (Nat.ltb a b = true \/ (Nat.ltb b a = false /\ 1 < 3)).
Proof.
  assert (forall a b c, Nat.ltb a b = true -> Nat.ltb b c = true -> Nat.ltb a c = true)
    as Htrans.
  { intros a b c Hab Hbc. apply Nat.ltb_lt in Hab, Hbc. apply Nat.ltb_lt. lia. }
  assert (forall a b c, Nat.ltb a b = false -> Nat.ltb b c = false -> Nat.ltb a c = false)
    as Hinc.
  { intros a b c Hab Hbc. apply Nat.ltb_ge in Hab, Hbc. apply Nat.ltb_ge. lia. }
  split; [exact Htrans|]. split; [exact Hinc|]. split; [reflexivity|].
  apply (argsort_stable Nat.ltb Htrans Hinc [30; 10; 20; 10] 0 1 1 3);
    [lia | reflexivity | reflexivity].
Defined.

(** ** [main]: runs that end in an exception *)

(** X17. On a configuration dictionary without a [vendorProductId] field,
    [detect_keyboard] raises [KeyError], and [main] ends in that exception
    having written nothing. *)
Theorem main_no_identifier (h : heap) (config : loc) (entries : dict string value) :
  h !! config = Some (ODict entries) ->
  dict_get entries "vendorProductId" = None ->
  detect_keyboard h config = Raise KeyError
  /\ main h config = ([], Uncaught KeyError).
Proof.
  intros Hc Hnone.
  assert (detect_keyboard h config = Raise KeyError) as Hdetect.
  { unfold detect_keyboard. rewrite (config_getitem_dict _ _ _ _ Hc).
    unfold dict_getitem. by rewrite Hnone. }
  split; [done|]. unfold main. by rewrite Hdetect.
Qed.

Lemma main_no_identifier_witness :
  [ODict [("layers", VRef 1)]; OList []] !! 0 = Some (ODict [("layers", VRef 1)])
  /\ detect_keyboard [ODict [("layers", VRef 1)]; OList []] 0 = Raise KeyError
  /\ main [ODict [("layers", VRef 1)]; OList []] 0 = ([], Uncaught KeyError).
Proof.
  split; [reflexivity|].
  apply (main_no_identifier [ODict [("layers", VRef 1)]; OList []] 0
           [("layers", VRef 1)] eq_refl eq_refl).
Defined.

(** X18. On a configuration of the schema that is detected as one of the two
    keyboards and has a layer shorter than that keyboard's layout, [main]
    writes the two lines that announce the plan and then ends in
    [IndexError]: nothing is written on standard output and ["Done."] is not
    written. *)
Theorem main_short_layer (keyboard : string) (h : heap) (config : loc)
    (layers : list (list string)) :
  detect_keyboard h config = Ok (Some keyboard) ->
  config_layers h config = Ok layers ->
  Exists (fun layer => length layer < length (from_layer keyboard)) layers ->
  main h config
  = ([Stderr (if is_keychron keyboard then "Detected Keychron Q1 Pro config."
              else "Detected GMMK Pro config.");
      Stderr (if is_keychron keyboard then "Mapping to a GMMK Pro config..."
              else "Mapping to a Keychron Q1 Pro config...")],
     Uncaught IndexError).
Proof.
  intros Hdetect Hlayers Hshort. unfold main.
  rewrite Hdetect, (map_config_short keyboard h config layers Hlayers Hshort).
  assert (keyboard = "KEYCHRON" \/ keyboard = "GMMK") as [->| ->]; [|done..].
  unfold detect_keyboard in Hdetect.
  destruct (config_getitem h config "vendorProductId") as [a|]; [|discriminate].
  simpl in Hdetect.
  destruct (value_eq a (VInt 875824656)); [left; congruence|].
  destruct (value_eq a (VInt 839864388)); [right; congruence | discriminate].
Qed.

Lemma main_short_layer_witness :
  detect_keyboard
    [ODict [("vendorProductId", VInt 839864388); ("layers", VRef 1)];
     OList [VRef 2]; OList [VStr "KC_A"]] 0
  = Ok (Some "GMMK")
  /\ main
       [ODict [("vendorProductId", VInt 839864388); ("layers", VRef 1)];
        OList [VRef 2]; OList [VStr "KC_A"]] 0
     = ([Stderr "Detected GMMK Pro config.";
         Stderr "Mapping to a Keychron Q1 Pro config..."],
        Uncaught IndexError).
Proof.
  split; [reflexivity|].
  apply (main_short_layer "GMMK"
           [ODict [("vendorProductId", VInt 839864388); ("layers", VRef 1)];
            OList [VRef 2]; OList [VStr "KC_A"]] 0 [["KC_A"]] eq_refl eq_refl).
  apply Exists_cons_hd. vm_compute. lia.
Defined.
